(** * Audio-downloader bot: persistence, fingerprinting and conversation handlers

  A shallow embedding of [src/main.py] (class [YouTubeAudioDownloaderBot])
  and the properties of it that the specification states.

  Conventions of the embedding:
  - the SQLite database is a record of its two tables; a nullable column is
    an [option];
  - [datetime.now()] is read from an explicit clock supplied with each call;
  - the local disk is a finite map from paths to byte contents;
  - a string is the UTF-8 encoding of a Python [str];
  - external collaborators (yt-dlp, the Telegram transport, the storage
    medium) are oracles supplied with each call: what they return, and
    whether they raise. Of the Telegram calls, the delivery of the audio
    can fail; the calls that show or edit a text are taken to go through,
    so that statements about what a handler returns speak of the runs in
    which its texts reach the user. *)

From Stdlib Require Import ZArith NArith Lia Ascii String List DecimalN.
From Stdlib.Strings Require Import Byte.
From stdpp Require Import base option list gmap strings.
From Equations.Prop Require Import Equations Logic.

Local Open Scope string_scope.
Local Open Scope Z_scope.

(** ** Text helpers: the fragments of Python's [str] and [re] the bot uses *)

Module Text.

(** [s.startswith(p)], returning the remainder after the prefix. *)
Fixpoint strip_prefix (p s : string) : option string :=
  match p with
  | EmptyString => Some s
  | String a p' =>
      match s with
      | EmptyString => None
      | String b s' => if Ascii.eqb a b then strip_prefix p' s' else None
      end
  end.

(** [s.replace(old, new)] for a non-empty [old]: every non-overlapping
    occurrence, left to right. [skip] counts the characters of a matched
    occurrence that remain to be dropped. *)
Fixpoint replace_from (old new : string) (skip : nat) (s : string) : string :=
  match s with
  | EmptyString => EmptyString
  | String c s' =>
      match skip with
      | S k => replace_from old new k s'
      | O =>
          match strip_prefix old s with
          | Some _ => new ++ replace_from old new (Nat.pred (String.length old)) s'
          | None => String c (replace_from old new 0 s')
          end
      end
  end.

Definition replace (old new s : string) : string := replace_from old new 0 s.

(** A string holds the UTF-8 encoding of a Python [str]: one character is
    a lead byte followed by its continuation bytes, those of the form
    [10xxxxxx]. *)
Definition continues (c : ascii) : bool :=
  (128 <=? N_of_ascii c)%N && (N_of_ascii c <? 192)%N.

(** [len(s)]: the number of characters. *)
Fixpoint chars (s : string) : nat :=
  match s with
  | EmptyString => O
  | String c s' => if continues c then chars s' else S (chars s')
  end.

(** [s[:n]]: the first [n] characters, each with all of its bytes. *)
Fixpoint take (n : nat) (s : string) : string :=
  match s with
  | EmptyString => EmptyString
  | String c s' =>
      if continues c then String c (take n s')
      else match n with
           | O => EmptyString
           | S k => String c (take k s')
           end
  end.

(** Every character of [s] is an ASCII one. *)
Fixpoint is_ascii (s : string) : bool :=
  match s with
  | EmptyString => true
  | String c s' => (N_of_ascii c <? 128)%N && is_ascii s'
  end.

(** [c in s] *)
Fixpoint has (c : ascii) (s : string) : bool :=
  match s with
  | EmptyString => false
  | String a s' => Ascii.eqb a c || has c s'
  end.

Definition hex_digit (n : N) : ascii :=
  match N.to_nat n with
  | 0 => "0" | 1 => "1" | 2 => "2" | 3 => "3" | 4 => "4" | 5 => "5" | 6 => "6"
  | 7 => "7" | 8 => "8" | 9 => "9" | 10 => "a" | 11 => "b" | 12 => "c"
  | 13 => "d" | 14 => "e" | _ => "f"
  end%nat%char.

Definition single_quote : ascii := "039"%char.
Definition double_quote : ascii := "034"%char.
Definition backslash : ascii := "092"%char.

(** The quote [repr] puts around [s]: double quotes when [s] holds a single
    quote and no double quote, single quotes otherwise. *)
Definition repr_quote (s : string) : ascii :=
  if has single_quote s && negb (has double_quote s) then double_quote else single_quote.

(** How [repr] prints one character inside the quotes [q]: the quote and
    the backslash get a backslash in front, tab, newline and carriage return
    are written [\t], [\n], [\r], the other control characters as [\xNN];
    the rest is copied (of the characters beyond ASCII, the printable
    ones). *)
Definition repr_char (q c : ascii) : string :=
  if Ascii.eqb c q || Ascii.eqb c backslash then String backslash (String c EmptyString)
  else if Ascii.eqb c "009" then String backslash "t"
  else if Ascii.eqb c "010" then String backslash "n"
  else if Ascii.eqb c "013" then String backslash "r"
  else if (N_of_ascii c <? 32)%N || (N_of_ascii c =? 127)%N then
    String backslash
      (String "x" (String (hex_digit (N_of_ascii c / 16))
                     (String (hex_digit (N_of_ascii c mod 16)) EmptyString)))
  else String c EmptyString.

Fixpoint repr_body (q : ascii) (s : string) : string :=
  match s with
  | EmptyString => EmptyString
  | String c s' => repr_char q c ++ repr_body q s'
  end.

(** [repr(s)] *)
Definition py_repr (s : string) : string :=
  String (repr_quote s) (repr_body (repr_quote s) s ++ String (repr_quote s) EmptyString).

(** The greedy group [(\d+)] of a regular expression, read at the start of
    [s]: the longest run of decimal digits, as a decimal numeral. The digits
    are the ASCII ones, which is what [str] prints into the callback data;
    the run ends at the first character that is not one of them, which is
    what the pattern does when that character is an ASCII one. *)
Fixpoint scan_digits (s : string) : Decimal.uint :=
  match s with
  | EmptyString => Decimal.Nil
  | String c s' =>
      if Ascii.eqb c "0" then Decimal.D0 (scan_digits s')
      else if Ascii.eqb c "1" then Decimal.D1 (scan_digits s')
      else if Ascii.eqb c "2" then Decimal.D2 (scan_digits s')
      else if Ascii.eqb c "3" then Decimal.D3 (scan_digits s')
      else if Ascii.eqb c "4" then Decimal.D4 (scan_digits s')
      else if Ascii.eqb c "5" then Decimal.D5 (scan_digits s')
      else if Ascii.eqb c "6" then Decimal.D6 (scan_digits s')
      else if Ascii.eqb c "7" then Decimal.D7 (scan_digits s')
      else if Ascii.eqb c "8" then Decimal.D8 (scan_digits s')
      else if Ascii.eqb c "9" then Decimal.D9 (scan_digits s')
      else Decimal.Nil
  end.

(** [str(n)] of a decimal numeral. *)
Fixpoint print_digits (d : Decimal.uint) : string :=
  match d with
  | Decimal.Nil => EmptyString
  | Decimal.D0 d' => String "0" (print_digits d')
  | Decimal.D1 d' => String "1" (print_digits d')
  | Decimal.D2 d' => String "2" (print_digits d')
  | Decimal.D3 d' => String "3" (print_digits d')
  | Decimal.D4 d' => String "4" (print_digits d')
  | Decimal.D5 d' => String "5" (print_digits d')
  | Decimal.D6 d' => String "6" (print_digits d')
  | Decimal.D7 d' => String "7" (print_digits d')
  | Decimal.D8 d' => String "8" (print_digits d')
  | Decimal.D9 d' => String "9" (print_digits d')
  end.

(** [str(n)] for a non-negative integer, [int(s)] for a run of digits. *)
Definition str_of_N (n : N) : string := print_digits (N.to_uint n).
Definition int_of_digits (d : Decimal.uint) : N := N.of_uint d.

(** [str(i)] for any integer: a minus sign in front of a negative one. *)
Definition str_of_Z (i : Z) : string :=
  match i with
  | Zneg p => String "-" (str_of_N (Npos p))
  | _ => str_of_N (Z.to_N i)
  end.

(** The text behind a run of digits does not go on with a digit of any
    script: it is empty, or it begins with an ASCII character that is not a
    digit. *)
Definition ends_the_digits (s : string) : bool :=
  match s with
  | EmptyString => true
  | String c _ =>
      (N_of_ascii c <? 128)%N && negb ((48 <=? N_of_ascii c)%N && (N_of_ascii c <=? 57)%N)
  end.

(** [old in s] *)
Fixpoint occurs (old s : string) : bool :=
  match strip_prefix old s with
  | Some _ => true
  | None =>
      match s with
      | EmptyString => false
      | String _ s' => occurs old s'
      end
  end.

End Text.

(** ** The dictionaries the bot receives *)

Module Dicts.

(** An entry of [search_results['entries']], as returned by yt-dlp: a
    dictionary in which any of the keys the bot reads may be missing. *)
Record video := Video {
  v_id : option string;
  v_title : option string;
  v_webpage_url : option string;
  v_uploader : option string
}.

(** [update.effective_user.to_dict()]: [id] is always present, the names
    are optional. *)
Record tg_user := TgUser {
  id : Z;
  u_username : option string;
  u_first_name : option string;
  u_last_name : option string
}.

(** [d.get(key, dflt)] *)
Definition get {A} (field : option A) (dflt : A) : A :=
  match field with Some a => a | None => dflt end.

End Dicts.

Import Dicts.

(** ** The persistence store: tables [users] and [downloads]
  ([_init_database], lines 80-109) *)

Module Store.

(** A row of [users]; the key [user_id] is the key of the map. *)
Record user_row := UserRow {
  username : option string;
  first_name : option string;
  last_name : option string;
  join_date : option Z;
  total_downloads : option Z;
  last_download_date : option Z
}.

(** A row of [downloads]. *)
Record download_row := DownloadRow {
  d_id : Z;
  d_user_id : option Z;
  d_video_id : option string;
  d_title : option string;
  d_download_date : option Z;
  d_file_hash : option string
}.

(** [autoinc] is the counter SQLite keeps for [AUTOINCREMENT]. *)
Record database := Database {
  users : gmap Z user_row;
  downloads : list download_row;
  autoinc : Z
}.

Definition empty_db : database := Database ∅ [] 0.

(** [SELECT COUNT( * ) FROM downloads WHERE user_id = ?] *)
Definition count_downloads (db : database) (uid : Z) : Z :=
  Z.of_nat (length (filter (λ r, d_user_id r = Some uid) (downloads db))).

(** SQL [COALESCE(x, d)] *)
Definition coalesce {A} (x : option A) (d : A) : A :=
  match x with Some v => v | None => d end.

(** The scalar subquery
    [(SELECT total_downloads + 1 FROM users WHERE user_id = ?)]:
    NULL for no row, and NULL + 1 is NULL. *)
Definition select_total_plus_1 (db : database) (uid : Z) : option Z :=
  match users db !! uid with
  | Some r => match total_downloads r with Some n => Some (n + 1) | None => None end
  | None => None
  end.

(** [INSERT OR REPLACE INTO users (...) VALUES (?, ?, ?, ?, ?,
    COALESCE((SELECT total_downloads + 1 ...), 1), ?)] (lines 119-133):
    the row with the same primary key, if any, is replaced as a whole.
    [t_join] and [t_last] are the two readings of [datetime.now()]. *)
Definition upsert_user (user : tg_user) (t_join t_last : Z) (d : database) : database :=
  let total := coalesce (select_total_plus_1 d (id user)) 1 in
  Database
    (<[id user := UserRow (Some (get (u_username user) ""))
                          (Some (get (u_first_name user) ""))
                          (Some (get (u_last_name user) ""))
                          (Some t_join) (Some total) (Some t_last)]> (users d))
    (downloads d) (autoinc d).

(** [INSERT INTO downloads (user_id, video_id, title, download_date,
    file_hash) VALUES (?, ?, ?, ?, ?)] (lines 136-146) *)
Definition insert_download (user : tg_user) (v : video) (t : Z) (file_hash : string)
    (d : database) : database :=
  let rowid := autoinc d + 1 in
  Database (users d)
    (downloads d ++
       [DownloadRow rowid (Some (id user)) (Some (get (v_id v) "unknown"))
          (Some (get (v_title v) "Unknown Title")) (Some t) (Some file_hash)])
    rowid.

(** The stats query (lines 209-215): [fetchone()] gives no row for an
    unknown user. *)
Definition select_stats (d : database) (uid : Z) : option (option Z * option Z * Z) :=
  match users d !! uid with
  | Some r => Some (total_downloads r, last_download_date r, count_downloads d uid)
  | None => None
  end.

End Store.

(** ** The content fingerprint: [hashlib.md5] and [_calculate_file_hash]
  (lines 150-156) *)

Module MD5.

Definition u32 (x : Z) : Z := x mod 2 ^ 32.
Definition add32 (a b : Z) : Z := u32 (a + b).
Definition not32 (a : Z) : Z := Z.lxor a 0xffffffff.
Definition rotl32 (x c : Z) : Z :=
  Z.lor (u32 (Z.shiftl x c)) (Z.shiftr x (32 - c)).

(** The sine table and the per-round shift amounts of RFC 1321. *)
Definition K : list Z :=
  [0xd76aa478; 0xe8c7b756; 0x242070db; 0xc1bdceee;
   0xf57c0faf; 0x4787c62a; 0xa8304613; 0xfd469501;
   0x698098d8; 0x8b44f7af; 0xffff5bb1; 0x895cd7be;
   0x6b901122; 0xfd987193; 0xa679438e; 0x49b40821;
   0xf61e2562; 0xc040b340; 0x265e5a51; 0xe9b6c7aa;
   0xd62f105d; 0x02441453; 0xd8a1e681; 0xe7d3fbc8;
   0x21e1cde6; 0xc33707d6; 0xf4d50d87; 0x455a14ed;
   0xa9e3e905; 0xfcefa3f8; 0x676f02d9; 0x8d2a4c8a;
   0xfffa3942; 0x8771f681; 0x6d9d6122; 0xfde5380c;
   0xa4beea44; 0x4bdecfa9; 0xf6bb4b60; 0xbebfbc70;
   0x289b7ec6; 0xeaa127fa; 0xd4ef3085; 0x04881d05;
   0xd9d4d039; 0xe6db99e5; 0x1fa27cf8; 0xc4ac5665;
   0xf4292244; 0x432aff97; 0xab9423a7; 0xfc93a039;
   0x655b59c3; 0x8f0ccc92; 0xffeff47d; 0x85845dd1;
   0x6fa87e4f; 0xfe2ce6e0; 0xa3014314; 0x4e0811a1;
   0xf7537e82; 0xbd3af235; 0x2ad7d2bb; 0xeb86d391].

Definition R : list Z :=
  [7; 12; 17; 22; 7; 12; 17; 22; 7; 12; 17; 22; 7; 12; 17; 22;
   5; 9; 14; 20; 5; 9; 14; 20; 5; 9; 14; 20; 5; 9; 14; 20;
   4; 11; 16; 23; 4; 11; 16; 23; 4; 11; 16; 23; 4; 11; 16; 23;
   6; 10; 15; 21; 6; 10; 15; 21; 6; 10; 15; 21; 6; 10; 15; 21].

Definition words := (Z * Z * Z * Z)%type.

Definition init_words : words :=
  (0x67452301, 0xefcdab89, 0x98badcfe, 0x10325476).

(** The 32-bit little-endian word number [i] of a block of bytes. *)
Definition word_at (block : list Z) (i : nat) : Z :=
  let b k := nth (4 * i + k) block 0 in
  Z.lor (b 0%nat)
    (Z.lor (Z.shiftl (b 1%nat) 8)
       (Z.lor (Z.shiftl (b 2%nat) 16) (Z.shiftl (b 3%nat) 24))).

Definition step (block : list Z) (st : words) (i : nat) : words :=
  let '(a, b, c, d) := st in
  let '(f, g) :=
    if (i <? 16)%nat then
      (Z.lor (Z.land b c) (Z.land (not32 b) d), i)
    else if (i <? 32)%nat then
      (Z.lor (Z.land d b) (Z.land (not32 d) c), ((5 * i + 1) mod 16)%nat)
    else if (i <? 48)%nat then
      (Z.lxor b (Z.lxor c d), ((3 * i + 5) mod 16)%nat)
    else
      (Z.lxor c (Z.lor b (not32 d)), ((7 * i) mod 16)%nat) in
  let f' := add32 (add32 (add32 f a) (nth i K 0)) (word_at block g) in
  (d, add32 b (rotl32 f' (nth i R 0)), b, c).

(** One 64-byte block folded into the chaining value. *)
Definition compress (h : words) (block : list Z) : words :=
  let '(a, b, c, d) := h in
  let '(a', b', c', d') := fold_left (step block) (seq 0 64) h in
  (add32 a a', add32 b b', add32 c c', add32 d d').

(** Consume every full 64-byte block of [data]; return the chaining value
    and the bytes left over (fewer than 64). *)
Equations? absorb (h : words) (data : list Z) : words * list Z
  by wf (length data) lt :=
  absorb h data with le_lt_dec 64 (length data) => {
    | left _ => absorb (compress h (take 64 data)) (drop 64 data)
    | right _ => (h, data) }.
Proof. rewrite length_drop. lia. Qed.

(** The bit length as 8 little-endian bytes. *)
Definition le64 (n : Z) : list Z :=
  map (λ k, Z.land (Z.shiftr n (8 * Z.of_nat k)) 0xff) (seq 0 8).

(** RFC 1321 padding for a message of [len] bytes. *)
Definition padding (len : nat) : list Z :=
  0x80 :: replicate (Z.to_nat ((55 - Z.of_nat len) mod 64)) 0
       ++ le64 (8 * Z.of_nat len).

Definition hex_digit (n : Z) : ascii :=
  nth (Z.to_nat n) (list_ascii_of_string "0123456789abcdef") "0"%char.

Definition hex_byte (b : Z) : string :=
  String (hex_digit (Z.shiftr b 4)) (String (hex_digit (Z.land b 15)) EmptyString).

Definition hex_word (w : Z) : string :=
  hex_byte (Z.land w 0xff) ++ hex_byte (Z.land (Z.shiftr w 8) 0xff)
  ++ hex_byte (Z.land (Z.shiftr w 16) 0xff) ++ hex_byte (Z.land (Z.shiftr w 24) 0xff).

Definition hex_words (h : words) : string :=
  let '(a, b, c, d) := h in hex_word a ++ hex_word b ++ hex_word c ++ hex_word d.

Definition byte_val (b : byte) : Z := Z.of_N (Byte.to_N b).

(** The digest of a whole message, as RFC 1321 defines it. *)
Definition md5_hex (msg : list byte) : string :=
  hex_words (fst (absorb init_words (map byte_val msg ++ padding (length msg)))).

(** The hash object [hashlib.md5()]: chaining value, buffered tail and
    number of bytes fed so far. *)
Record hash_obj := HashObj {
  chain : words;
  buffer : list Z;
  fed : nat
}.

Definition new : hash_obj := HashObj init_words [] 0.

(** [h.update(data)] *)
Definition update (h : hash_obj) (data : list byte) : hash_obj :=
  let '(c, rest) := absorb (chain h) (buffer h ++ map byte_val data) in
  HashObj c rest (fed h + length data).

(** [h.hexdigest()] *)
Definition hexdigest (h : hash_obj) : string :=
  hex_words (fst (absorb (chain h) (buffer h ++ padding (fed h)))).

End MD5.

(** ** The world the bot runs in *)

Module World.

(** Exceptions the handlers can meet. *)
Inductive exn :=
| KeyError (key : string)             (* [d[key]] on a missing key *)
| FileNotFoundError (path : string)   (* [open] / [os.remove] on a missing file *)
| DatabaseError (msg : string)        (* [sqlite3.Error] from the storage medium *)
| DownloadError (msg : string)        (* raised by yt-dlp *)
| TelegramError (msg : string)        (* raised by the transport *)
| IndexError.                         (* [l[i]] out of range *)

(** [str(e)]: a [KeyError] prints the [repr] of the key (here one of the
    literals ['title'] and ['webpage_url']), an [OSError] its errno, message
    and the [repr] of the file name. *)
Definition str_exn (e : exn) : string :=
  match e with
  | KeyError k => "'" ++ k ++ "'"
  | FileNotFoundError p => "[Errno 2] No such file or directory: " ++ Text.py_repr p
  | DatabaseError m => m
  | DownloadError m => m
  | TelegramError m => m
  | IndexError => "list index out of range"
  end.

Record button := Button { label : string; callback_data : string }.

(** The texts the bot shows, by the place in the source that builds them. *)
Inductive message :=
| MsgAskQuery                 (* line 186 *)
| MsgHelp                     (* lines 191-199 *)
| MsgStats (total unique : Z) (last : option Z)   (* lines 219-224 *)
| MsgNoStats                  (* line 230 *)
| MsgWelcome                  (* lines 171-177 *)
| MsgSearching                (* lines 237-241 *)
| MsgNoResults                (* line 251 *)
| MsgResults (keyboard : list button)   (* lines 268-271 *)
| MsgSearchError              (* line 282 *)
| MsgCancelled                (* line 291 *)
| MsgInvalidSelection         (* line 298 *)
| MsgVideoNotFound            (* line 305 *)
| MsgDownloading (title : string)   (* line 309 *)
| MsgDownloaded (title : string)    (* line 333 *)
| MsgError (text : string).         (* line 339 *)

(** What a handler does to the outside, in order. *)
Inductive event :=
| Answer                           (* [query.answer()] *)
| Edit (m : message)               (* [query.edit_message_text] *)
| Reply (m : message)              (* [update.message.reply_text] *)
| DeleteSearching                  (* [search_message.delete()] *)
| Search (request : string)        (* [extract_info(request, download=False)] *)
| Fetch (url : string)             (* [extract_info(url, download=True)] *)
| SendAudio (path title performer : string)
| LogError (text : string).        (* [logger.error] *)

Record world := World {
  fs : gmap string (list byte);
  db : Store.database;
  out : list event
}.

Definition set_fs (f : gmap string (list byte)) (w : world) : world :=
  World f (db w) (out w).
Definition set_db (d : Store.database) (w : world) : world :=
  World (fs w) d (out w).

(** Computations over a state [S]: they read and change the state and
    either return or raise. What was done before an exception stays done. *)
Definition ST (S A : Type) : Type := S → (exn + A) * S.

Definition ret {S A} (a : A) : ST S A := λ w, (inr a, w).
Definition raise {S A} (e : exn) : ST S A := λ w, (inl e, w).
Definition bind {S A B} (k : A → ST S B) (m : ST S A) : ST S B :=
  λ w, match m w with
       | (inl e, w') => (inl e, w')
       | (inr a, w') => k a w'
       end.
#[export] Instance ST_ret S : MRet (ST S) := @ret S.
#[export] Instance ST_bind S : MBind (ST S) := @bind S.

(** [try: body except Exception as e: handler(e)] *)
Definition try_except {S A} (body : ST S A) (handler : exn → ST S A) : ST S A :=
  λ w, match body w with
       | (inl e, w') => handler e w'
       | (inr a, w') => (inr a, w')
       end.

(** [d[key]] *)
Definition item {S A} (key : string) (field : option A) : ST S A :=
  match field with Some a => ret a | None => raise (KeyError key) end.

(** Handlers run on the world. *)
Abbreviation M := (ST world).

(** An event takes place and is written down. *)
Definition emit (ev : event) : M unit :=
  λ w, (inr tt, World (fs w) (db w) (out w ++ [ev])).

End World.

Import World.


(** ** The bot: [YouTubeAudioDownloaderBot] *)

Module Bot.

(** Configuration set in [__init__] (lines 54-56). *)
Definition MAX_FILE_SIZE_MB : Z := 50.
Definition MAX_SEARCH_RESULTS : nat := 5.
Definition RATE_LIMIT_SECONDS : Z := 30.

(** *** [_calculate_file_hash] *)

(** The size asked of each [f.read(4096)]. *)
Definition CHUNK : nat := N.to_nat 4096.

#[global] Opaque CHUNK.

(** A file opened for reading: its bytes, the read position, and a log of
    the sizes the calls to [read] returned. *)
Record file_obj := FileObj {
  f_bytes : list byte;
  f_pos : nat;
  f_reads : list nat
}.

Definition open_rb (content : list byte) : file_obj := FileObj content 0 [].

(** [f.read(n)] *)
Definition read (n : nat) (f : file_obj) : list byte * file_obj :=
  let chunk := take n (drop (f_pos f) (f_bytes f)) in
  (chunk, FileObj (f_bytes f) (f_pos f + length chunk)
                  (f_reads f ++ [length chunk])).

Definition remaining (f : file_obj) : nat := length (f_bytes f) - f_pos f.

(** [for chunk in iter(lambda: f.read(4096), b""): hash_md5.update(chunk)] *)
Equations? hash_loop (f : file_obj) (h : MD5.hash_obj) : MD5.hash_obj * file_obj
  by wf (remaining f) lt :=
  hash_loop f h with inspect (read CHUNK f) => {
    | exist _ ([], f') _ => (h, f')
    | exist _ (b :: chunk, f') _ => hash_loop f' (MD5.update h (b :: chunk)) }.
Proof.
  unfold remaining; simpl.
  match goal with H : take _ _ = _ |- _ =>
    rewrite H; apply (f_equal length) in H;
    rewrite length_take, length_drop in H; cbn [length] in H
  end.
  cbn [length]; lia.
Qed.

(** The body of [_calculate_file_hash] once the file is open: the hash
    object after the loop, and the file object with its log of reads. *)
Definition hash_file (content : list byte) : MD5.hash_obj * file_obj :=
  hash_loop (open_rb content) MD5.new.

Definition file_digest (content : list byte) : string :=
  MD5.hexdigest (fst (hash_file content)).

Definition _calculate_file_hash (file_path : string) : M string :=
  λ w, match fs w !! file_path with
       | None => (inl (FileNotFoundError file_path), w)
       | Some content => (inr (file_digest content), w)
       end.

(** *** The oracles of one call *)

(** Where the storage medium may fail during one use of the database. *)
Inductive db_step := Connect | ExecUpsert | ExecInsert | ExecSelect | Commit.

#[export] Instance db_step_eq_dec : EqDecision db_step.
Proof. solve_decision. Defined.

(** What [extract_info(request, download=False)] gives: it raises, or
    returns a value that is falsy ([None], also standing for an empty
    dictionary) or a dictionary in which the key ['entries'] is missing or
    holds a list. *)
Inductive search_reply :=
| SearchRaises (msg : string)
| SearchFalsy
| SearchDict (entries : option (list video)).

(** What [extract_info(url, download=True)] followed by
    [prepare_filename(info)] gives: it raises, or it has written files to
    the download directory and names the file it prepared. *)
Inductive fetch_reply :=
| FetchRaises (msg : string)
| FetchOk (prepared : string) (written : gmap string (list byte)).

Record env := Env {
  search_info : string → search_reply;
  fetch_info : string → fetch_reply;
  send_audio_error : option string;   (* [None]: the transport delivers *)
  db_fault : option db_step;          (* [None]: the storage medium works *)
  now : nat → Z                       (* the successive [datetime.now()] *)
}.

(** *** [_log_user_download] (lines 111-148) *)

(** A connection: what is committed, and the state the open transaction
    sees. *)
Record conn := Conn { durable : Store.database; pending : Store.database }.

Abbreviation Tx := (ST conn).

Definition fault_msg : string := "database is locked".

(** [cursor.execute(stmt)] *)
Definition execute (e : env) (step : db_step)
    (stmt : Store.database → Store.database) : Tx unit :=
  λ c, if decide (db_fault e = Some step)
       then (inl (DatabaseError fault_msg), c)
       else (inr tt, Conn (durable c) (stmt (pending c))).

(** [cursor.execute(select)] followed by [cursor.fetchone()] *)
Definition query {A} (e : env) (select : Store.database → A) : Tx A :=
  λ c, if decide (db_fault e = Some ExecSelect)
       then (inl (DatabaseError fault_msg), c)
       else (inr (select (pending c)), c).

(** [conn.commit()] *)
Definition commit (e : env) : Tx unit :=
  λ c, if decide (db_fault e = Some Commit)
       then (inl (DatabaseError fault_msg), c)
       else (inr tt, Conn (pending c) (pending c)).

(** [with sqlite3.connect(self.DB_PATH) as conn: body]: leaving the block
    commits, leaving it by an exception rolls back. *)
Definition with_connection {A} (e : env) (body : Tx A) : M A :=
  λ w, if decide (db_fault e = Some Connect)
       then (inl (DatabaseError fault_msg), w)
       else match body (Conn (db w) (db w)) with
            | (inr a, c) => (inr a, set_db (pending c) w)
            | (inl ex, c) => (inl ex, set_db (durable c) w)
            end.

Definition _log_user_download (e : env) (user : tg_user) (video_info : video)
    (file_path : string) : M unit :=
  file_hash ← _calculate_file_hash file_path;
  with_connection e
    (execute e ExecUpsert (Store.upsert_user user (now e 0) (now e 1));;
     execute e ExecInsert (Store.insert_download user video_info (now e 2) file_hash);;
     commit e).

(** *** Conversation states (line 35) and per-user data *)

Inductive conv_state := SEARCH_QUERY | SELECT_RESULT | END.

#[export] Instance conv_state_eq_dec : EqDecision conv_state.
Proof. solve_decision. Defined.

(** [context.user_data]: the key ['search_results'] may be absent. *)
Record user_data := UserData { search_results : option (list video) }.

(** *** [start_command] (lines 158-177) *)

Definition start_command : M (option conv_state) :=
  emit (Reply MsgWelcome);; mret None.

(** *** [callback_handler] (lines 179-230) *)

(** Python's [x or 0] on a nullable integer. *)
Definition or_0 (x : option Z) : Z :=
  match x with Some v => v | None => 0 end.

Definition callback_handler (e : env) (data : string) (uid : Z) : M (option conv_state) :=
  emit Answer;;
  if decide (data = "search") then
    emit (Edit MsgAskQuery);; mret (Some SEARCH_QUERY)
  else if decide (data = "help") then
    emit (Edit MsgHelp);; mret None
  else if decide (data = "stats") then
    stats ← with_connection e (query e (λ d, Store.select_stats d uid));
    match stats with
    | Some (total, last, unique_downloads) =>
        emit (Edit (MsgStats (or_0 total) (or_0 (Some unique_downloads)) last))
    | None => emit (Edit MsgNoStats)
    end;;
    mret None
  else mret None.

(** *** [search_audio] (lines 232-283) *)

(** The loop of lines 256-261 over [enumerate(entries, i)]. *)
Fixpoint result_buttons (i : N) (entries : list video) : M (list button) :=
  match entries with
  | [] => mret []
  | v :: rest =>
      title ← item "title" (v_title v);
      let button_text := Text.str_of_N i ++ ". " ++ Text.take 50 title ++ "..." in
      keyboard ← result_buttons (N.succ i) rest;
      mret (Button button_text ("select_video_" ++ Text.str_of_N (i - 1)) :: keyboard)
  end.

Definition cancel_button : button := Button "🔙 Annuler" "cancel".

Definition search_request (query : string) : string :=
  "ytsearch" ++ Text.str_of_N (N.of_nat MAX_SEARCH_RESULTS) ++ ":" ++ query.

(** The handler returns the stage together with [context.user_data] as it
    leaves it. The entries are stored (line 266) before the keyboard is sent
    (line 268); the sending being taken to go through, the stored entries are
    what the handler returns with [SELECT_RESULT]. *)
Definition search_audio (e : env) (query : string) (ud : user_data)
    : M (conv_state * user_data) :=
  emit (Reply MsgSearching);;
  try_except
    (emit (Search (search_request query));;
     match search_info e (search_request query) with
     | SearchRaises msg => raise (DownloadError msg)
     | SearchFalsy | SearchDict None =>
         emit DeleteSearching;;
         emit (Reply MsgNoResults);;
         mret (END, ud)
     | SearchDict (Some entries) =>
         emit DeleteSearching;;
         keyboard ← result_buttons 1 (take MAX_SEARCH_RESULTS entries);
         emit (Reply (MsgResults (keyboard ++ [cancel_button])));;
         mret (SELECT_RESULT, UserData (Some entries))
     end)
    (λ ex,
       emit DeleteSearching;;
       emit (LogError ("Erreur de recherche : " ++ str_exn ex));;
       emit (Reply MsgSearchError);;
       mret (END, ud)).

(** *** [select_and_download] (lines 285-340) *)

(** [re.match(r'select_video_(\d+)', data)] followed by
    [int(match.group(1))]. *)
Definition match_select_video (data : string) : option N :=
  match Text.strip_prefix "select_video_" data with
  | None => None
  | Some rest =>
      match Text.scan_digits rest with
      | Decimal.Nil => None
      | d => Some (Text.int_of_digits d)
      end
  end.

(** [l[i]] for [i >= 0] *)
Definition list_item {A} (l : list A) (i : N) : M A :=
  match l !! N.to_nat i with Some a => mret a | None => raise IndexError end.

(** Lines 312-314: the download, and the name the bot expects for the
    file. *)
Definition download (e : env) (url : string) : M string :=
  emit (Fetch url);;
  match fetch_info e url with
  | FetchRaises msg => raise (DownloadError msg)
  | FetchOk prepared written =>
      λ w, (inr (Text.replace ".webm" ".mp3" prepared), set_fs (written ∪ fs w) w)
  end.

(** [open(file_path, 'rb')] *)
Definition open_file (file_path : string) : M (list byte) :=
  λ w, match fs w !! file_path with
       | Some content => (inr content, w)
       | None => (inl (FileNotFoundError file_path), w)
       end.

(** [update.effective_chat.send_audio(audio, title=..., performer=...)] *)
Definition send_audio (e : env) (file_path title performer : string) : M unit :=
  match send_audio_error e with
  | Some msg => raise (TelegramError msg)
  | None => emit (SendAudio file_path title performer)
  end.

(** [os.remove(file_path)] *)
Definition os_remove (file_path : string) : M unit :=
  λ w, match fs w !! file_path with
       | Some _ => (inr tt, set_fs (delete file_path (fs w)) w)
       | None => (inl (FileNotFoundError file_path), w)
       end.

Definition select_and_download (e : env) (data : string) (user : tg_user)
    (ud : user_data) : M conv_state :=
  emit Answer;;
  if decide (data = "cancel") then
    emit (Edit MsgCancelled);; mret END
  else
    try_except
      (match match_select_video data with
       | None => emit (Edit MsgInvalidSelection);; mret END
       | Some index =>
           let results := get (search_results ud) [] in
           if (N.of_nat (length results) <=? index)%N then
             emit (Edit MsgVideoNotFound);; mret END
           else
             video ← list_item results index;
             title ← item "title" (v_title video);
             emit (Edit (MsgDownloading title));;
             url ← item "webpage_url" (v_webpage_url video);
             file_path ← download e url;
             _ ← open_file file_path;
             send_audio e file_path title (get (v_uploader video) "Unknown");;
             _log_user_download e user video file_path;;
             os_remove file_path;;
             emit (Edit (MsgDownloaded title));;
             mret END
       end)
      (λ ex,
         emit (LogError ("Erreur de téléchargement : " ++ str_exn ex));;
         emit (Edit (MsgError (str_exn ex)));;
         mret END).

(** *** The conversation handler wired in [setup_bot] (lines 342-364) *)

Inductive update :=
| Command (name : string)
| CallbackQuery (data : string)
| TextMessage (text : string).     (* text that is not a command *)

(** The conversation of one user: [stage = END] when none is running. *)
Record session := Session { stage : conv_state; data : user_data }.

(** A handler that returns [None] leaves the stage as it is. *)
Definition next_stage (s : conv_state) (r : option conv_state) : conv_state :=
  match r with Some s' => s' | None => s end.

Definition handle (e : env) (user : tg_user) (s : session) (u : update) : M session :=
  match stage s, u with
  | END, Command name =>
      if decide (name = "start") then
        r ← start_command; mret (Session (next_stage END r) (data s))
      else mret s
  | END, CallbackQuery d =>
      r ← callback_handler e d (id user); mret (Session (next_stage END r) (data s))
  | SEARCH_QUERY, TextMessage query =>
      '(st, ud) ← search_audio e query (data s); mret (Session st ud)
  | SELECT_RESULT, CallbackQuery d =>
      st ← select_and_download e d user (data s); mret (Session st (data s))
  | st, Command name =>
      if decide (name = "cancel") then
        r ← start_command; mret (Session (next_stage st r) (data s))
      else mret s
  | _, _ => mret s
  end.

(** *** What the user is left looking at *)

Inductive outcome :=
| Cancelled
| InvalidSelection
| Success
| ErrorShown (text : string)
| NoOutcome.

Definition outcome_of (m : message) : outcome :=
  match m with
  | MsgCancelled => Cancelled
  | MsgInvalidSelection | MsgVideoNotFound => InvalidSelection
  | MsgDownloaded _ => Success
  | MsgError text => ErrorShown text
  | _ => NoOutcome
  end.

(** The last text [query.edit_message_text] put on the screen. *)
Definition last_edit (evs : list event) : option message :=
  last (omap (λ ev, match ev with Edit m => Some m | _ => None end) evs).

Definition user_outcome (w : world) : outcome :=
  match last_edit (out w) with Some m => outcome_of m | None => NoOutcome end.

Definition fetches (evs : list event) : list string :=
  omap (λ ev, match ev with Fetch url => Some url | _ => None end) evs.



(** *** Histories of recorded downloads *)

(** One call of [_log_user_download]: its arguments, the oracles, and the
    files on disk when it runs. *)
Record log_call := LogCall {
  lc_env : env;
  lc_user : tg_user;
  lc_video : video;
  lc_path : string;
  lc_files : gmap string (list byte)
}.

Definition run_log (d : Store.database) (c : log_call) : Store.database :=
  db (snd (_log_user_download (lc_env c) (lc_user c) (lc_video c) (lc_path c)
             (World (lc_files c) d []))).

Definition run_logs (calls : list log_call) (d : Store.database) : Store.database :=
  foldl run_log d calls.

(** The counter column of a user: [None] when the user has no row. *)
Definition counter (d : Store.database) (uid : Z) : option (option Z) :=
  Store.total_downloads <$> Store.users d !! uid.

(** The counter a user must have for [n] download rows: no row of [users]
    for none, the number itself otherwise. *)
Definition counter_for (n : Z) : option (option Z) :=
  if decide (n = 0) then None else Some (Some n).

(** The counter agrees with the rows, for every user. *)
Definition consistent (d : Store.database) : Prop :=
  ∀ uid, counter d uid = counter_for (Store.count_downloads d uid).

(** The database after a download by [user] of [v] with fingerprint [h] has
    been recorded with the clock of [e]. *)
Definition recorded (e : env) (user : tg_user) (v : video) (h : string)
    (d : Store.database) : Store.database :=
  Store.insert_download user v (now e 2) h
    (Store.upsert_user user (now e 0) (now e 1) d).

(** The faults of the storage medium that [_log_user_download] can meet. *)
Definition write_fault (e : env) : bool :=
  match db_fault e with
  | Some Connect | Some ExecUpsert | Some ExecInsert | Some Commit => true
  | Some ExecSelect | None => false
  end.

(** The faults of the storage medium that the stats query can meet. *)
Definition read_fault (e : env) : bool :=
  match db_fault e with
  | Some Connect | Some ExecSelect => true
  | _ => false
  end.

(** A user's successive updates, each with the oracles of its moment. *)
Fixpoint run (user : tg_user) (s : session) (inputs : list (env * update)) : M session :=
  match inputs with
  | [] => mret s
  | (e, u) :: rest => s' ← handle e user s u; run user s' rest
  end.

(** *** The bot as a whole *)

(** One update reaching the bot: who sends it, the stage and data the
    conversation handler holds for that user, and the oracles of the
    moment. *)
Record inbound := Inbound {
  in_env : env;
  in_user : tg_user;
  in_session : session;
  in_update : update
}.

Definition serve (w : world) (x : inbound) : world :=
  snd (handle (in_env x) (in_user x) (in_session x) (in_update x) w).

Definition serve_all (xs : list inbound) (w : world) : world := foldl serve w xs.

(** A computation keeps a property of the database. *)
Definition preserves {A} (I : Store.database → Prop) (m : M A) : Prop :=
  ∀ w, I (db w) → I (db (snd (m w))).

(** The sizes of the reads that empty a file of [n] bytes, [size] bytes at
    a time: full reads, the rest if there is one, and the empty read that
    ends the loop. *)
Definition read_sizes (size n : nat) : list nat :=
  (replicate (n / size) size
   ++ (if decide (n mod size = 0)%nat then [] else [(n mod size)%nat])
   ++ [0%nat])%list.

(** *** What a handler did and what it left alone *)

(** The files handed to [send_audio]. *)
Definition deliveries (evs : list event) : list string :=
  omap (λ ev, match ev with SendAudio path _ _ => Some path | _ => None end) evs.

(** The lines written with [logger.error]. *)
Definition logged (evs : list event) : list string :=
  omap (λ ev, match ev with LogError text => Some text | _ => None end) evs.

(** An event that neither downloads nor delivers anything. *)
Definition harmless (ev : event) : Prop :=
  match ev with
  | Fetch _ | SendAudio _ _ _ => False
  | _ => True
  end.

(** A computation that leaves the disk and the database as they are and
    neither downloads nor delivers. *)
Definition quiet {A} (m : M A) : Prop :=
  ∀ w, fs (snd (m w)) = fs w ∧ db (snd (m w)) = db w ∧
       ∃ evs, out (snd (m w)) = (out w ++ evs)%list ∧ Forall harmless evs.

(** Whenever the computation returns, its result satisfies [P]. *)
Definition ends_with {A} (P : A → Prop) (m : M A) : Prop :=
  ∀ w, match fst (m w) with inr a => P a | inl _ => True end.

End Bot.

Import Bot.

(** ** Concrete conversations *)

Module Scenario.

Definition lofi : video :=
  Video (Some "abc")
        (Some "Lofi beats to relax and study to, a title that is longer than fifty characters")
        (Some "https://youtu.be/abc") (Some "Chill").

Definition jazz : video :=
  Video (Some "def") (Some "Jazz") (Some "https://youtu.be/def") None.

Definition candidates : list video := [lofi; jazz].

Definition song : list byte := ["I"; "D"; "3"; x03; x00]%byte.

Definition alice : tg_user := TgUser 7 (Some "alice") (Some "Alice") None.

(** yt-dlp downloads a [.webm], has ffmpeg produce the [.mp3] beside it and
    removes the original. Both videos carry the same audio. *)
Definition youtube (url : string) : fetch_reply :=
  if decide (url = "https://youtu.be/abc")
  then FetchOk "downloads/abc.webm" {["downloads/abc.mp3" := song]}
  else FetchOk "downloads/def.webm" {["downloads/def.mp3" := song]}.

(** The oracles at time [t]: the search finds [found]; the transport and
    the storage medium behave as [send] and [fault] say. *)
Definition env_at (t : Z) (found : search_reply) (send : option string)
    (fault : option db_step) : env :=
  Env (λ _, found) youtube send fault (λ k, t + Z.of_nat k).

Definition calm (t : Z) : env := env_at t (SearchDict (Some candidates)) None None.

Definition fresh : world := World ∅ Store.empty_db [].

Definition idle : session := Session END (UserData None).

Definition choosing : user_data := UserData (Some candidates).

(** Alice has one download on record and the next file is on disk. *)
Definition old_row : Store.user_row :=
  Store.UserRow (Some "al") (Some "Al") (Some "") (Some 0) (Some 1) (Some 1).

Definition returning : world :=
  World {["downloads/def.mp3" := song]}
    (Store.Database {[7 := old_row]}
       [Store.DownloadRow 1 (Some 7) (Some "abc") (Some "Lofi") (Some 2)
          (Some "0cc175b9c0f1b6a831c399e269772661")] 1)
    [].

(** A candidate without an address, and one without a title. *)
Definition unreachable : video := Video (Some "ghi") (Some "Ghost") None None.
Definition untitled : video := Video (Some "jkl") None (Some "https://youtu.be/jkl") None.

(** The oracles when yt-dlp answers every download with [reply]. *)
Definition env_fetching (reply : fetch_reply) : env :=
  Env (λ _, SearchDict (Some candidates)) (λ _, reply) None None (λ k, Z.of_nat k).

(** yt-dlp picked an [.m4a] stream: it prepared [abc.m4a] and ffmpeg left
    [abc.mp3]. *)
Definition m4a : fetch_reply :=
  FetchOk "downloads/abc.m4a" {["downloads/abc.mp3" := song]}.

(** yt-dlp asked for [ytsearchN:query]: it finds the two candidates and
    returns no more than [N] of them. *)
Definition youtube_search (request : string) : search_reply :=
  match Text.strip_prefix "ytsearch" request with
  | Some rest =>
      SearchDict (Some (take (N.to_nat (N.of_uint (Text.scan_digits rest))) candidates))
  | None => SearchRaises "Unsupported URL"
  end.

Definition tube : env := Env youtube_search youtube None None (λ k, Z.of_nat k).

(** A user nobody has seen, and a video without id and title. *)
Definition bob : tg_user := TgUser 8 None (Some "Bob") None.
Definition nameless : video := Video None None None None.

End Scenario.

(** * Properties *)

(** ** The persistence store *)

Section StoreFacts.

Implicit Types (d : Store.database) (user : tg_user) (v : video).

Lemma count_downloads_insert user v t h d uid :
  Store.count_downloads (Store.insert_download user v t h d) uid =
  Store.count_downloads d uid + (if decide (id user = uid) then 1 else 0).
Proof.
  unfold Store.count_downloads, Store.insert_download; simpl.
  rewrite filter_app, length_app, filter_cons, filter_nil; simpl.
  case_decide as Hu; case_decide as Hv; simpl; try lia; congruence.
Qed.

Lemma count_downloads_upsert user t1 t2 d uid :
  Store.count_downloads (Store.upsert_user user t1 t2 d) uid = Store.count_downloads d uid.
Proof. reflexivity. Qed.

Lemma count_downloads_nonneg d uid : 0 ≤ Store.count_downloads d uid.
Proof. unfold Store.count_downloads; lia. Qed.

Lemma counter_upsert_same user t1 t2 d :
  counter (Store.upsert_user user t1 t2 d) (id user) =
  Some (Some (Store.coalesce (Store.select_total_plus_1 d (id user)) 1)).
Proof. unfold counter, Store.upsert_user; simpl. by rewrite lookup_insert_eq. Qed.

Lemma counter_upsert_other user t1 t2 d uid :
  id user ≠ uid → counter (Store.upsert_user user t1 t2 d) uid = counter d uid.
Proof. intros Hne. unfold counter, Store.upsert_user; simpl. by rewrite lookup_insert_ne. Qed.

Lemma counter_insert user v t h d uid :
  counter (Store.insert_download user v t h d) uid = counter d uid.
Proof. reflexivity. Qed.

Lemma consistent_empty : consistent Store.empty_db.
Proof. intros uid. reflexivity. Qed.

Lemma consistent_record user v t1 t2 t3 h d :
  consistent d →
  consistent (Store.insert_download user v t3 h (Store.upsert_user user t1 t2 d)).
Proof.
  intros Hd uid. rewrite counter_insert, count_downloads_insert, count_downloads_upsert.
  pose proof (count_downloads_nonneg d uid) as Hge.
  case_decide as Hu.
  - subst uid. rewrite counter_upsert_same.
    specialize (Hd (id user)). unfold counter, Store.select_total_plus_1 in *.
    destruct (Store.users d !! id user) as [r|]; simpl in Hd.
    + unfold counter_for in Hd. case_decide; [discriminate|].
      injection Hd as ->. simpl. unfold counter_for.
      case_decide; [lia | reflexivity].
    + unfold counter_for in Hd. case_decide; [|discriminate].
      simpl. unfold counter_for. case_decide; [lia|]. do 2 f_equal. lia.
  - rewrite counter_upsert_other by done. rewrite Z.add_0_r. apply Hd.
Qed.

End StoreFacts.

(** ** [_log_user_download]: one transaction *)

Section LogUserDownload.

Variables (e : env) (user : tg_user) (v : video) (path : string).

Lemma log_user_download_ok w content :
  fs w !! path = Some content → write_fault e = false →
  _log_user_download e user v path w =
  (inr tt, set_db (recorded e user v (file_digest content) (db w)) w).
Proof.
  intros Hf He. unfold _log_user_download, _calculate_file_hash, mbind, ST_bind, bind.
  rewrite Hf. unfold with_connection, execute, commit, write_fault in *.
  destruct (db_fault e) as [[]|]; try discriminate; reflexivity.
Qed.

Lemma log_user_download_fault w content :
  fs w !! path = Some content → write_fault e = true →
  _log_user_download e user v path w = (inl (DatabaseError fault_msg), set_db (db w) w).
Proof.
  destruct w as [f d o]; simpl.
  intros Hf He. unfold _log_user_download, _calculate_file_hash, mbind, ST_bind, bind.
  simpl. rewrite Hf. unfold with_connection, execute, commit, write_fault in *.
  destruct (db_fault e) as [[]|]; try discriminate; reflexivity.
Qed.

Lemma log_user_download_unreadable w :
  fs w !! path = None →
  _log_user_download e user v path w = (inl (FileNotFoundError path), w).
Proof.
  intros Hf. unfold _log_user_download, _calculate_file_hash, mbind, ST_bind, bind.
  by rewrite Hf.
Qed.

(** Whatever happens, the database is either untouched or holds both
    writes. *)
Lemma log_user_download_atomic w :
  match _log_user_download e user v path w with
  | (inr _, w') =>
      ∃ content, fs w !! path = Some content ∧
        db w' = recorded e user v (file_digest content) (db w)
  | (inl _, w') => db w' = db w
  end.
Proof.
  destruct (fs w !! path) as [content|] eqn:Hf.
  - destruct (write_fault e) eqn:He.
    + by rewrite (log_user_download_fault w content Hf He).
    + rewrite (log_user_download_ok w content Hf He). by exists content.
  - by rewrite log_user_download_unreadable.
Qed.

End LogUserDownload.

Lemma run_log_consistent d c : consistent d → consistent (run_log d c).
Proof.
  intros Hd. unfold run_log.
  pose proof (log_user_download_atomic (lc_env c) (lc_user c) (lc_video c) (lc_path c)
                (World (lc_files c) d [])) as Ha.
  destruct (_log_user_download _ _ _ _ _) as [[ex|[]] w']; simpl in *.
  - by rewrite Ha.
  - destruct Ha as (content & _ & ->). by apply consistent_record.
Qed.

Lemma run_logs_consistent calls d : consistent d → consistent (run_logs calls d).
Proof.
  revert d. induction calls as [|c calls IH]; intros d Hd; [done|].
  apply IH, run_log_consistent, Hd.
Qed.

(** ** No handler breaks the counter *)

Section Preservation.

Context {I : Store.database → Prop}.

Lemma preserves_ret {A} (a : A) : preserves I (mret a).
Proof. by intros w. Qed.

Lemma preserves_raise {A} ex : preserves I (raise ex : M A).
Proof. by intros w. Qed.

Lemma preserves_emit ev : preserves I (emit ev).
Proof. by intros w. Qed.

Lemma preserves_bind {A B} (m : M A) (k : A → M B) :
  preserves I m → (∀ a, preserves I (k a)) → preserves I (m ≫= k).
Proof.
  intros Hm Hk w Hw. specialize (Hm w Hw).
  unfold mbind, ST_bind, bind. destruct (m w) as [[ex|a] w']; [done|].
  by apply Hk.
Qed.

Lemma preserves_try {A} (m : M A) (handler : exn → M A) :
  preserves I m → (∀ ex, preserves I (handler ex)) → preserves I (try_except m handler).
Proof.
  intros Hm Hh w Hw. specialize (Hm w Hw).
  unfold try_except. destruct (m w) as [[ex|a] w']; [|done].
  by apply Hh.
Qed.

Lemma preserves_item {A} key (field : option A) : preserves I (item key field).
Proof. destruct field; [apply preserves_ret | apply preserves_raise]. Qed.

Lemma preserves_list_item {A} (l : list A) i : preserves I (list_item l i).
Proof. unfold list_item. destruct (l !! _); [apply preserves_ret | apply preserves_raise]. Qed.

Lemma preserves_download e url : preserves I (download e url).
Proof.
  unfold download. apply preserves_bind; [apply preserves_emit|]. intros _.
  destruct (fetch_info e url); [apply preserves_raise | by intros w].
Qed.

Lemma preserves_open_file path : preserves I (open_file path).
Proof. intros w Hw. unfold open_file. by destruct (fs w !! path). Qed.

Lemma preserves_send_audio e path title performer :
  preserves I (send_audio e path title performer).
Proof. unfold send_audio. destruct (send_audio_error e); [apply preserves_raise | apply preserves_emit]. Qed.

Lemma preserves_os_remove path : preserves I (os_remove path).
Proof. intros w Hw. unfold os_remove. by destruct (fs w !! path). Qed.

Lemma preserves_query {A} e (select : Store.database → A) :
  preserves I (with_connection e (query e select)).
Proof.
  intros w Hw. unfold with_connection, query.
  repeat case_decide; done.
Qed.

Lemma preserves_result_buttons entries : ∀ i, preserves I (result_buttons i entries).
Proof.
  induction entries as [|v entries IH]; intros i; simpl; [apply preserves_ret|].
  apply preserves_bind; [apply preserves_item|]. intros title.
  apply preserves_bind; [apply IH|]. intros keyboard. apply preserves_ret.
Qed.

Lemma preserves_start_command : preserves I start_command.
Proof. apply preserves_bind; [apply preserves_emit|]. intros _. apply preserves_ret. Qed.

Lemma preserves_callback_handler e data uid : preserves I (callback_handler e data uid).
Proof.
  unfold callback_handler. apply preserves_bind; [apply preserves_emit|]. intros _.
  repeat case_decide;
    repeat first
      [ apply preserves_ret | apply preserves_emit | apply preserves_query
      | apply preserves_bind; [|intros ?] | case_match ].
Qed.

Lemma preserves_search_audio e query ud : preserves I (search_audio e query ud).
Proof.
  unfold search_audio. apply preserves_bind; [apply preserves_emit|]. intros _.
  apply preserves_try.
  - apply preserves_bind; [apply preserves_emit|]. intros _.
    repeat first
      [ apply preserves_ret | apply preserves_emit | apply preserves_raise
      | apply preserves_result_buttons
      | apply preserves_bind; [|intros ?] | case_match ].
  - intros ex.
    repeat first
      [ apply preserves_ret | apply preserves_emit | apply preserves_bind; [|intros ?] ].
Qed.

End Preservation.

Lemma preserves_log_user_download e user v path :
  preserves consistent (_log_user_download e user v path).
Proof.
  intros w Hw. pose proof (log_user_download_atomic e user v path w) as Ha.
  destruct (_log_user_download _ _ _ _ _) as [[ex|[]] w']; simpl in *.
  - by rewrite Ha.
  - destruct Ha as (content & _ & ->). by apply consistent_record.
Qed.

Lemma preserves_select_and_download e data user ud :
  preserves consistent (select_and_download e data user ud).
Proof.
  unfold select_and_download. apply preserves_bind; [apply preserves_emit|]. intros _.
  case_decide.
  - apply preserves_bind; [apply preserves_emit|]. intros _. apply preserves_ret.
  - apply preserves_try.
    + repeat first
        [ apply preserves_ret | apply preserves_emit | apply preserves_item
        | apply preserves_list_item | apply preserves_download | apply preserves_open_file
        | apply preserves_send_audio | apply preserves_os_remove
        | apply preserves_log_user_download
        | apply preserves_bind; [|intros ?] | case_match ].
    + intros ex.
      repeat first
        [ apply preserves_ret | apply preserves_emit | apply preserves_bind; [|intros ?] ].
Qed.

Lemma preserves_handle e user s u : preserves consistent (handle e user s u).
Proof.
  unfold handle.
  repeat first
    [ apply preserves_ret | apply preserves_start_command
    | apply preserves_callback_handler | apply preserves_search_audio
    | apply preserves_select_and_download
    | apply preserves_bind; [|intros ?] | case_match | case_decide ].
Qed.

Lemma serve_all_consistent xs w : consistent (db w) → consistent (db (serve_all xs w)).
Proof.
  revert w. induction xs as [|x xs IH]; intros w Hw; [done|].
  apply IH. by apply preserves_handle.
Qed.

(** C1. After any sequence of calls of [_log_user_download] on the initially
    empty database (whatever files, clock readings and storage faults each
    call meets), and likewise after any sequence of updates handled by the
    bot for any users, every user's [total_downloads] equals the number of
    rows of [downloads] with that user id (and the user has no row of [users]
    exactly when that number is 0); every single call either leaves the
    database untouched or commits the counter update together with the new
    download row; and a call that finds its file and meets no storage fault
    does return and does both: one more row for the user, and the counter
    one higher (on a database where the two agreed, they agree again, at the
    old number plus one). *)
Theorem total_downloads_equals_download_rows :
  (∀ calls uid,
     counter (run_logs calls Store.empty_db) uid =
     counter_for (Store.count_downloads (run_logs calls Store.empty_db) uid)) ∧
  (∀ updates files uid,
     counter (db (serve_all updates (World files Store.empty_db []))) uid =
     counter_for
       (Store.count_downloads (db (serve_all updates (World files Store.empty_db []))) uid)) ∧
  (∀ e user v path w,
     match _log_user_download e user v path w with
     | (inr _, w') =>
         ∃ content, fs w !! path = Some content ∧
           db w' = Store.insert_download user v (now e 2) (file_digest content)
                     (Store.upsert_user user (now e 0) (now e 1) (db w)) ∧
           Store.count_downloads (db w') (id user) =
             Store.count_downloads (db w) (id user) + 1
     | (inl _, w') => db w' = db w
     end) ∧
  (∀ e user v path w content,
     fs w !! path = Some content → write_fault e = false →
     ∃ w',
       _log_user_download e user v path w = (inr tt, w') ∧
       fs w' = fs w ∧ out w' = out w ∧
       db w' = Store.insert_download user v (now e 2) (file_digest content)
                 (Store.upsert_user user (now e 0) (now e 1) (db w)) ∧
       Store.count_downloads (db w') (id user) =
         Store.count_downloads (db w) (id user) + 1 ∧
       counter (db w') (id user) =
         Some (Some (Store.coalesce (Store.select_total_plus_1 (db w) (id user)) 1)) ∧
       (counter (db w) (id user) = counter_for (Store.count_downloads (db w) (id user)) →
        counter (db w') (id user) = Some (Some (Store.count_downloads (db w) (id user) + 1)))).
Proof.
  split; [|split; [|split]].
  - intros calls uid. apply run_logs_consistent, consistent_empty.
  - intros updates files uid. apply serve_all_consistent, consistent_empty.
  - intros e user v path w.
    pose proof (log_user_download_atomic e user v path w) as Ha.
    destruct (_log_user_download _ _ _ _ _) as [[ex|[]] w']; [done|].
    destruct Ha as (content & Hf & Hdb). exists content. repeat split; try done.
    rewrite Hdb. unfold recorded.
    rewrite count_downloads_insert, count_downloads_upsert.
    case_decide; [done | congruence].
  - intros e user v path w content Hf He.
    rewrite (log_user_download_ok e user v path w content Hf He).
    eexists. split; [reflexivity|]. unfold recorded; simpl.
    split; [done|]. split; [done|]. split; [done|].
    assert (Store.count_downloads
              (Store.insert_download user v (now e 2) (file_digest content)
                 (Store.upsert_user user (now e 0) (now e 1) (db w))) (id user) =
            Store.count_downloads (db w) (id user) + 1) as Hcount.
    { rewrite count_downloads_insert, count_downloads_upsert.
      case_decide; [done | congruence]. }
    split; [done|].
    rewrite counter_insert, counter_upsert_same. split; [done|].
    intros Hagree. do 2 f_equal.
    pose proof (count_downloads_nonneg (db w) (id user)) as Hge.
    unfold counter, counter_for, Store.select_total_plus_1 in *.
    destruct (Store.users (db w) !! id user) as [r|]; simpl in *.
    + case_decide; [discriminate|]. by injection Hagree as ->.
    + case_decide as Hz; [|discriminate]. rewrite Hz. reflexivity.
Qed.

(** C1 for the second download of a user who has one on record. *)
Lemma total_downloads_equals_download_rows_witness :
  fs Scenario.returning !! "downloads/def.mp3" = Some Scenario.song ∧
  write_fault (Scenario.calm 10) = false ∧
  ∃ w',
    _log_user_download (Scenario.calm 10) Scenario.alice Scenario.jazz "downloads/def.mp3"
      Scenario.returning = (inr tt, w') ∧
    fs w' = fs Scenario.returning ∧ out w' = out Scenario.returning ∧
    db w' = Store.insert_download Scenario.alice Scenario.jazz (now (Scenario.calm 10) 2)
              (file_digest Scenario.song)
              (Store.upsert_user Scenario.alice (now (Scenario.calm 10) 0)
                 (now (Scenario.calm 10) 1) (db Scenario.returning)) ∧
    Store.count_downloads (db w') (id Scenario.alice) =
      Store.count_downloads (db Scenario.returning) (id Scenario.alice) + 1 ∧
    counter (db w') (id Scenario.alice) =
      Some (Some (Store.coalesce
                    (Store.select_total_plus_1 (db Scenario.returning) (id Scenario.alice)) 1)) ∧
    (counter (db Scenario.returning) (id Scenario.alice) =
       counter_for (Store.count_downloads (db Scenario.returning) (id Scenario.alice)) →
     counter (db w') (id Scenario.alice) =
       Some (Some (Store.count_downloads (db Scenario.returning) (id Scenario.alice) + 1))).
Proof.
  split; [reflexivity|]. split; [reflexivity|].
  apply (proj2 (proj2 (proj2 total_downloads_equals_download_rows))
           (Scenario.calm 10) Scenario.alice Scenario.jazz "downloads/def.mp3"
           Scenario.returning Scenario.song); reflexivity.
Defined.

(** ** The fingerprint *)

(** The embedding of [hashlib.md5] against known digests: the empty
    message, a short one, and one fed to the hash object in two pieces that
    do not fall on block boundaries. *)
Example md5_of_empty : MD5.md5_hex [] = "d41d8cd98f00b204e9800998ecf8427e".
Proof. by vm_compute. Qed.

Example md5_of_abc :
  MD5.md5_hex ["a"; "b"; "c"]%byte = "900150983cd24fb0d6963f7d28e17f72".
Proof. by vm_compute. Qed.

Example md5_in_two_updates :
  MD5.hexdigest
    (MD5.update (MD5.update MD5.new (replicate 70 "a"%byte)) (replicate 70 "b"%byte)) =
  "1b19483417e5beede25b6d19654da982".
Proof. by vm_compute. Qed.

Section MD5Facts.

Implicit Types (c : MD5.words) (h : MD5.hash_obj) (x y : list Z).

Lemma absorb_unfold c x :
  MD5.absorb c x =
  if decide (64 ≤ length x)%nat
  then MD5.absorb (MD5.compress c (take 64 x)) (drop 64 x)
  else (c, x).
Proof.
  rewrite MD5.absorb_equation_1.
  destruct (le_lt_dec 64 (length x)); simpl; case_decide; try lia; reflexivity.
Qed.

Lemma absorb_short c x : (length x < 64)%nat → MD5.absorb c x = (c, x).
Proof. intros Hx. rewrite absorb_unfold. case_decide; [lia | reflexivity]. Qed.

(** Feeding [x ++ y] is feeding [x], then what [x] left over followed by
    [y]. *)
Lemma absorb_app x : ∀ c y,
  MD5.absorb c (x ++ y) =
  MD5.absorb (fst (MD5.absorb c x)) (snd (MD5.absorb c x) ++ y).
Proof.
  remember (length x) as n eqn:Hn. revert x Hn.
  induction n as [n IH] using lt_wf_ind. intros x Hn c y.
  destruct (decide (64 ≤ length x)%nat) as [Hge|Hlt].
  - rewrite (absorb_unfold c (x ++ y)), (absorb_unfold c x).
    rewrite decide_True by (rewrite length_app; lia).
    rewrite decide_True by done.
    rewrite take_app_le, drop_app_le by lia.
    apply (IH (length (drop 64 x))); [rewrite length_drop; lia | done].
  - rewrite (absorb_short c x) by lia. reflexivity.
Qed.

Lemma absorb_leftover_short c x : (length (snd (MD5.absorb c x)) < 64)%nat.
Proof.
  remember (length x) as n eqn:Hn. revert c x Hn.
  induction n as [n IH] using lt_wf_ind. intros c x Hn.
  rewrite absorb_unfold. case_decide; simpl; [|lia].
  apply (IH (length (drop 64 x))); [rewrite length_drop; lia | done].
Qed.

Lemma update_buffer_short h data : (length (MD5.buffer (MD5.update h data)) < 64)%nat.
Proof.
  unfold MD5.update.
  pose proof (absorb_leftover_short (MD5.chain h) (MD5.buffer h ++ map MD5.byte_val data)).
  by destruct (MD5.absorb _ _).
Qed.

Lemma update_nil h : (length (MD5.buffer h) < 64)%nat → MD5.update h [] = h.
Proof.
  intros Hb. unfold MD5.update. simpl. rewrite app_nil_r, absorb_short by done.
  destruct h; simpl. by rewrite Nat.add_0_r.
Qed.

(** Repeated calls of [update] are equivalent to a single call with the
    concatenation of the arguments. *)
Lemma update_app h a b : MD5.update (MD5.update h a) b = MD5.update h (a ++ b).
Proof.
  unfold MD5.update.
  rewrite map_app, app_assoc, (absorb_app (MD5.buffer h ++ map MD5.byte_val a)).
  destruct (MD5.absorb (MD5.chain h) (MD5.buffer h ++ map MD5.byte_val a)) as [c1 r1]; simpl.
  destruct (MD5.absorb c1 (r1 ++ map MD5.byte_val b)) as [c2 r2].
  by rewrite length_app, Nat.add_assoc.
Qed.

(** The hash object fed a whole message gives the RFC 1321 digest of it. *)
Lemma hexdigest_update_new content :
  MD5.hexdigest (MD5.update MD5.new content) = MD5.md5_hex content.
Proof.
  unfold MD5.hexdigest, MD5.md5_hex, MD5.update. simpl.
  rewrite (absorb_app (map MD5.byte_val content)).
  by destruct (MD5.absorb MD5.init_words _).
Qed.

Lemma string_length_app (s t : string) :
  String.length (s ++ t) = (String.length s + String.length t)%nat.
Proof. induction s as [|a s IH]; simpl; [done | by rewrite IH]. Qed.

(** The digest is printed as 32 hexadecimal digits: 128 bits. *)
Lemma hex_words_length c : String.length (MD5.hex_words c) = 32%nat.
Proof.
  destruct c as [[[a b] c] d]. unfold MD5.hex_words, MD5.hex_word.
  rewrite !string_length_app. reflexivity.
Qed.

End MD5Facts.

Section HashLoop.

Lemma CHUNK_value : Z.of_nat CHUNK = 4096.
Proof. by vm_compute. Qed.

Lemma CHUNK_pos : (0 < CHUNK)%nat.
Proof. pose proof CHUNK_value. lia. Qed.

Lemma hash_loop_unfold f h :
  hash_loop f h =
  match read CHUNK f with
  | ([], f') => (h, f')
  | (chunk, f') => hash_loop f' (MD5.update h chunk)
  end.
Proof.
  rewrite hash_loop_equation_1.
  assert (∀ s : {y | read CHUNK f = y},
            hash_loop_unfold_clause_1 f s h =
            match proj1_sig s with
            | ([], f') => (h, f')
            | (chunk, f') => hash_loop f' (MD5.update h chunk)
            end) as Hs.
  { intros [[[|b chunk] f'] E]; reflexivity. }
  apply (Hs (inspect (read CHUNK f))).
Qed.

Lemma take_nil_inv {A} (n : nat) (l : list A) : (0 < n)%nat → take n l = [] → l = [].
Proof. destruct n, l; simpl; intros; try done; lia. Qed.

Lemma take_drop_length {A} (n : nat) (l : list A) :
  (take n l ++ drop (length (take n l)) l)%list = l.
Proof.
  rewrite length_take. destruct (decide (n ≤ length l)%nat).
  - rewrite Nat.min_l by done. apply take_drop.
  - rewrite Nat.min_r by lia. by rewrite take_ge, drop_all, app_nil_r by lia.
Qed.

(** The loop feeds the hash object everything from the read position to the
    end of the file, in reads of at most [CHUNK] bytes each. *)
Lemma hash_loop_spec f h :
  (length (MD5.buffer h) < 64)%nat →
  ∃ log,
    hash_loop f h =
      (MD5.update h (drop (f_pos f) (f_bytes f)),
       FileObj (f_bytes f) (f_pos f + remaining f) (f_reads f ++ log)) ∧
    Forall (λ n, (n ≤ CHUNK)%nat) log ∧
    sum_list log = remaining f.
Proof.
  remember (remaining f) as n eqn:Hn. revert f h Hn.
  induction n as [n IH] using lt_wf_ind. intros [bytes pos reads] h Hn Hh.
  unfold remaining in Hn; simpl in *.
  rewrite hash_loop_unfold. unfold read; simpl.
  pose proof (take_drop_length CHUNK (drop pos bytes)) as Hsplit.
  pose proof (length_take (drop pos bytes) CHUNK) as Hlen.
  rewrite length_drop, <- Hn in Hlen.
  destruct (take CHUNK (drop pos bytes)) as [|b chunk] eqn:Et.
  - apply take_nil_inv in Et; [|apply CHUNK_pos].
    exists [0%nat]. rewrite Et, update_nil by done.
    apply (f_equal length) in Et. rewrite length_drop in Et. simpl in *.
    assert (n = 0%nat) as -> by lia.
    split; [done|]. split; [|done]. constructor; [lia | constructor].
  - set (len := length (b :: chunk)) in *.
    assert (0 < len ≤ n)%nat as Hl by (subst len; cbn [length] in *; lia).
    clearbody len.
    destruct (IH (n - len)%nat ltac:(lia) (FileObj bytes (pos + len) (reads ++ [len]))
                (MD5.update h (b :: chunk))) as (log & Hrun & Hall & Hsum).
    { unfold remaining; simpl. lia. }
    { apply update_buffer_short. }
    simpl in Hrun. exists (len :: log). split; [|split].
    + rewrite Hrun, update_app, <- drop_drop, Hsplit, <- app_assoc.
      do 2 f_equal. lia.
    + constructor; [lia | done].
    + simpl. lia.
Qed.

Lemma hash_file_spec content :
  ∃ log,
    hash_file content =
      (MD5.update MD5.new content, FileObj content (length content) log) ∧
    Forall (λ n, (n ≤ CHUNK)%nat) log ∧
    sum_list log = length content.
Proof.
  destruct (hash_loop_spec (open_rb content) MD5.new) as (log & Hrun & Hall & Hsum).
  { simpl. lia. }
  unfold remaining in *; simpl in *. rewrite Nat.sub_0_r in *.
  exists log. by rewrite drop_0 in Hrun.
Qed.

Lemma file_digest_md5 content : file_digest content = MD5.md5_hex content.
Proof.
  unfold file_digest. destruct (hash_file_spec content) as (log & -> & _).
  apply hexdigest_update_new.
Qed.

End HashLoop.

(** C8. [_calculate_file_hash] on a readable file returns (it does not
    raise, and leaves the world as it was); every [read] it issues returns at
    most 4096 bytes, and the reads together cover the file exactly once; the
    result is the MD5 digest of the file's bytes, 32 hexadecimal digits (128
    bits), whatever the path: two files with the same bytes get the same
    digest. *)
Theorem fingerprint_is_chunked_and_deterministic w1 w2 p1 p2 content :
  fs w1 !! p1 = Some content →
  fs w2 !! p2 = Some content →
  ∃ digest,
    _calculate_file_hash p1 w1 = (inr digest, w1) ∧
    _calculate_file_hash p2 w2 = (inr digest, w2) ∧
    digest = MD5.md5_hex content ∧
    String.length digest = 32%nat ∧
    Z.of_nat CHUNK = 4096 ∧
    Forall (λ n, (n ≤ CHUNK)%nat) (f_reads (snd (hash_file content))) ∧
    sum_list (f_reads (snd (hash_file content))) = length content.
Proof.
  intros H1 H2. exists (file_digest content).
  unfold _calculate_file_hash. rewrite H1, H2.
  destruct (hash_file_spec content) as (log & Hrun & Hall & Hsum).
  rewrite file_digest_md5, Hrun; simpl.
  split; [done|]. split; [done|]. split; [done|].
  split; [apply hex_words_length|]. split; [apply CHUNK_value | done].
Qed.

(** ** [select_and_download] *)

Section Traces.

Lemma last_edit_end evs pre m : last_edit (evs ++ pre ++ [Edit m]) = Some m.
Proof. unfold last_edit. rewrite !omap_app. simpl. by rewrite app_assoc, last_snoc. Qed.

Lemma fetches_app evs evs' : fetches (evs ++ evs') = (fetches evs ++ fetches evs')%list.
Proof. apply omap_app. Qed.

End Traces.

(** The path of a valid selection, up to the point where the file the bot
    expects is on disk. *)
Section Pipeline.

Variables (e : env) (user : tg_user) (ud : user_data) (w : world).
Variables (data : string) (index : N) (video : Dicts.video).
Variables (title url prepared : string) (written : gmap string (list byte)).
Variable (content : list byte).

Hypothesis Hdata : data ≠ "cancel".
Hypothesis Hindex : match_select_video data = Some index.
Hypothesis Hvideo : get (search_results ud) [] !! N.to_nat index = Some video.
Hypothesis Htitle : v_title video = Some title.
Hypothesis Hurl : v_webpage_url video = Some url.
Hypothesis Hfetch : fetch_info e url = FetchOk prepared written.
Hypothesis Hfile : (written ∪ fs w) !! (Text.replace ".webm" ".mp3" prepared) = Some content.

Lemma index_in_range :
  (N.of_nat (length (get (search_results ud) [])) <=? index)%N = false.
Proof. apply N.leb_gt. apply lookup_lt_Some in Hvideo. lia. Qed.

Ltac enter :=
  unfold select_and_download;
  rewrite decide_False by done;
  unfold mbind, ST_bind, bind, try_except, emit at 1; simpl;
  rewrite Hindex, index_in_range;
  unfold list_item; rewrite Hvideo; simpl; rewrite Htitle; simpl;
  rewrite Hurl; simpl;
  unfold download, mbind, ST_bind, bind, emit; simpl; rewrite Hfetch; simpl;
  unfold open_file; simpl; rewrite Hfile;
  unfold send_audio.

(** The transport refuses the file. *)
Lemma select_delivery_fails msg :
  send_audio_error e = Some msg →
  select_and_download e data user ud w =
  (inr END,
   World (written ∪ fs w) (db w)
     (out w ++ [Answer; Edit (MsgDownloading title); Fetch url;
                LogError ("Erreur de téléchargement : " ++ msg);
                Edit (MsgError msg)])).
Proof.
  intros Hsend. enter. rewrite Hsend. simpl.
  by rewrite <- !app_assoc.
Qed.

(** The file is delivered, then the storage medium fails. *)
Lemma select_persistence_fails :
  send_audio_error e = None → write_fault e = true →
  select_and_download e data user ud w =
  (inr END,
   World (written ∪ fs w) (db w)
     (out w ++ [Answer; Edit (MsgDownloading title); Fetch url;
                SendAudio (Text.replace ".webm" ".mp3" prepared) title (get (v_uploader video) "Unknown");
                LogError ("Erreur de téléchargement : " ++ fault_msg);
                Edit (MsgError fault_msg)])).
Proof.
  intros Hsend Hfault. enter. rewrite Hsend. simpl.
  erewrite log_user_download_fault by done. simpl.
  by rewrite <- !app_assoc.
Qed.

(** Everything works. *)
Lemma select_succeeds :
  send_audio_error e = None → write_fault e = false →
  select_and_download e data user ud w =
  (inr END,
   World (delete (Text.replace ".webm" ".mp3" prepared) (written ∪ fs w))
     (recorded e user video (file_digest content) (db w))
     (out w ++ [Answer; Edit (MsgDownloading title); Fetch url;
                SendAudio (Text.replace ".webm" ".mp3" prepared) title (get (v_uploader video) "Unknown");
                Edit (MsgDownloaded title)])).
Proof.
  intros Hsend Hfault. enter. rewrite Hsend. simpl.
  erewrite log_user_download_ok by done. simpl.
  unfold os_remove. simpl. rewrite Hfile. simpl.
  by rewrite <- !app_assoc.
Qed.

End Pipeline.

(** ** Callback data of a selection *)

Section SelectionData.

Lemma strip_prefix_app p s : Text.strip_prefix p (p ++ s) = Some s.
Proof. induction p as [|a p IH]; simpl; [done|]. by rewrite Ascii.eqb_refl. Qed.

Lemma scan_print_digits d : Text.scan_digits (Text.print_digits d) = d.
Proof. induction d; simpl; by f_equal. Qed.

Lemma scan_digits_app d rest :
  Text.scan_digits rest = Decimal.Nil →
  Text.scan_digits (Text.print_digits d ++ rest) = d.
Proof. intros Hrest. induction d; simpl; by f_equal. Qed.

Lemma to_uint_nonnil n : N.to_uint n ≠ Decimal.Nil.
Proof. destruct n; simpl; [done | apply DecimalPos.Unsigned.to_uint_nonnil]. Qed.

(** The index printed into a button's callback data is read back as it
    was. *)
Lemma match_select_video_N n :
  match_select_video ("select_video_" ++ Text.str_of_N n) = Some n.
Proof.
  unfold match_select_video. rewrite strip_prefix_app.
  unfold Text.str_of_N. rewrite scan_print_digits.
  pose proof (to_uint_nonnil n) as Hn.
  destruct (N.to_uint n) eqn:E; try done;
    unfold Text.int_of_digits; rewrite <- E; f_equal; apply DecimalN.Unsigned.of_to.
Qed.

(** A negative index does not match the pattern at all. *)
Lemma match_select_video_neg p :
  match_select_video ("select_video_" ++ Text.str_of_Z (Z.neg p)) = None.
Proof. unfold match_select_video. by rewrite strip_prefix_app. Qed.

Lemma select_data_not_cancel i : "select_video_" ++ Text.str_of_Z i ≠ "cancel".
Proof. discriminate. Qed.

End SelectionData.

(** Callback data that names no candidate: the two early exits of lines
    297-306. *)
Lemma select_invalid e data user ud w :
  data ≠ "cancel" →
  match match_select_video data with
  | Some index => (N.of_nat (length (get (search_results ud) [])) ≤ index)%N
  | None => True
  end →
  ∃ m, outcome_of m = InvalidSelection ∧
    select_and_download e data user ud w =
    (inr END, World (fs w) (db w) (out w ++ [Answer; Edit m])).
Proof.
  intros Hdata Hbad. unfold select_and_download. rewrite decide_False by done.
  unfold mbind, ST_bind, bind, try_except, emit; simpl.
  destruct (match_select_video data) as [index|]; simpl.
  - apply N.leb_le in Hbad. rewrite Hbad. simpl.
    exists MsgVideoNotFound. by rewrite <- app_assoc.
  - exists MsgInvalidSelection. by rewrite <- app_assoc.
Qed.

(** C3. A selection event whose index [i] is not an offset into the stored
    candidate list (negative, or at least its length; in particular any index
    when the list is empty or was never stored) is answered with an
    invalid-selection message; nothing is fetched, the disk and the database
    are untouched, and the conversation ends. *)
Theorem out_of_range_selection_is_rejected e user ud w (i : Z) :
  ¬ (0 ≤ i < Z.of_nat (length (get (search_results ud) []))) →
  ∃ m w',
    outcome_of m = InvalidSelection ∧
    w' = World (fs w) (db w) (out w ++ [Answer; Edit m]) ∧
    select_and_download e ("select_video_" ++ Text.str_of_Z i) user ud w = (inr END, w') ∧
    handle e user (Session SELECT_RESULT ud)
      (CallbackQuery ("select_video_" ++ Text.str_of_Z i)) w =
      (inr (Session END ud), w') ∧
    user_outcome w' = InvalidSelection ∧
    fetches (out w') = fetches (out w).
Proof.
  intros Hi.
  destruct (select_invalid e ("select_video_" ++ Text.str_of_Z i) user ud w)
    as (m & Hm & Hrun).
  { apply select_data_not_cancel. }
  { destruct i as [|p|p].
    - change (Text.str_of_Z 0) with (Text.str_of_N 0).
      rewrite match_select_video_N. lia.
    - change (Text.str_of_Z (Z.pos p)) with (Text.str_of_N (N.pos p)).
      rewrite match_select_video_N. lia.
    - by rewrite match_select_video_neg. }
  exists m, (World (fs w) (db w) (out w ++ [Answer; Edit m])).
  repeat split; try done.
  - unfold handle; simpl. unfold mbind, ST_bind, bind. by rewrite Hrun.
  - unfold user_outcome; simpl.
    by rewrite (last_edit_end (out w) [Answer] m : last_edit (out w ++ [Answer; Edit m]) = _).
  - simpl. rewrite fetches_app. simpl. by rewrite app_nil_r.
Qed.

(** ** The cooldown *)

(** C2 (the code at a failing input). Alice searches, picks the first
    result and is served at time 0; ten seconds later, well inside the
    30-second cooldown, she searches again and picks the second result: the
    second download is fetched, delivered and recorded like the first, and
    nothing is refused. *)
Example second_download_inside_cooldown_is_served :
  let first := [(Scenario.calm 0, CallbackQuery "search");
                (Scenario.calm 0, TextMessage "lofi");
                (Scenario.calm 0, CallbackQuery "select_video_0")] in
  let second := [(Scenario.calm 10, CallbackQuery "search");
                 (Scenario.calm 10, TextMessage "lofi");
                 (Scenario.calm 10, CallbackQuery "select_video_1")] in
  let w1 := snd (run Scenario.alice Scenario.idle first Scenario.fresh) in
  let r2 := run Scenario.alice Scenario.idle second (World (fs w1) (db w1) []) in
  10 - 0 < RATE_LIMIT_SECONDS ∧
  user_outcome w1 = Success ∧
  Store.last_download_date <$> Store.users (db w1) !! 7 = Some (Some 1) ∧
  fst r2 = inr (Session END Scenario.choosing) ∧
  user_outcome (snd r2) = Success ∧
  fetches (out (snd r2)) = ["https://youtu.be/def"] ∧
  Store.last_download_date <$> Store.users (db (snd r2)) !! 7 = Some (Some 11) ∧
  Store.count_downloads (db (snd r2)) 7 = 2.
Proof. vm_compute. repeat split; reflexivity. Qed.

(** ** Cleaning up the downloaded file *)

(** C4 (the code at failing inputs). Alice picks the first result and
    yt-dlp leaves [downloads/abc.mp3] on disk. When everything works the file
    is removed before the handler returns. When the transport refuses the
    file, or when the storage medium fails after the delivery, the handler
    returns with the file still on disk: [os.remove] sits after
    [_log_user_download] inside the [try] block and the [except] block does
    not remove anything. *)
Example artifact_left_on_disk_when_a_later_step_fails :
  let found := SearchDict (Some Scenario.candidates) in
  let select e :=
    snd (select_and_download e "select_video_0" Scenario.alice Scenario.choosing
           Scenario.fresh) in
  let served := select (Scenario.calm 0) in
  let undelivered := select (Scenario.env_at 0 found (Some "Request Entity Too Large") None) in
  let unrecorded := select (Scenario.env_at 0 found None (Some ExecInsert)) in
  (user_outcome served = Success ∧
   fs served !! "downloads/abc.mp3" = None) ∧
  (user_outcome undelivered = ErrorShown "Request Entity Too Large" ∧
   fs undelivered !! "downloads/abc.mp3" = Some Scenario.song) ∧
  (user_outcome unrecorded = ErrorShown "database is locked" ∧
   fs unrecorded !! "downloads/abc.mp3" = Some Scenario.song).
Proof. vm_compute. repeat split; reflexivity. Qed.

(** ** A storage failure after the delivery *)

(** C5 (counterexample). The file is delivered, then the commit fails: the
    last thing the user is shown is the error text of the storage failure,
    not the success message. *)
Lemma storage_failure_after_delivery_is_shown :
  let e := Scenario.env_at 0 (SearchDict (Some Scenario.candidates)) None (Some Commit) in
  let w' := snd (select_and_download e "select_video_0" Scenario.alice Scenario.choosing
                   Scenario.fresh) in
  out w' =
    [Answer;
     Edit (MsgDownloading "Lofi beats to relax and study to, a title that is longer than fifty characters");
     Fetch "https://youtu.be/abc";
     SendAudio "downloads/abc.mp3"
       "Lofi beats to relax and study to, a title that is longer than fifty characters" "Chill";
     LogError "Erreur de téléchargement : database is locked";
     Edit (MsgError "database is locked")] ∧
  user_outcome w' = ErrorShown "database is locked" ∧
  user_outcome w' ≠ Success.
Proof. vm_compute. split; [reflexivity|]. split; [reflexivity | discriminate]. Qed.

(** C5 (amended). When the storage medium fails after the file has been
    delivered, the delivery stands and nothing is written to the database,
    but the failure does reach the user: the handler logs it and then shows
    the user an error message with the text of the storage exception, in
    place of the success message; the conversation ends. *)
Theorem storage_failure_after_delivery_is_reported
    e user ud w data index video title url prepared written content :
  data ≠ "cancel" →
  match_select_video data = Some index →
  get (search_results ud) [] !! N.to_nat index = Some video →
  v_title video = Some title →
  v_webpage_url video = Some url →
  fetch_info e url = FetchOk prepared written →
  (written ∪ fs w) !! Text.replace ".webm" ".mp3" prepared = Some content →
  send_audio_error e = None →
  write_fault e = true →
  ∃ w',
    select_and_download e data user ud w = (inr END, w') ∧
    SendAudio (Text.replace ".webm" ".mp3" prepared) title
      (get (v_uploader video) "Unknown") ∈ out w' ∧
    LogError ("Erreur de téléchargement : " ++ fault_msg) ∈ out w' ∧
    user_outcome w' = ErrorShown fault_msg ∧
    db w' = db w.
Proof.
  intros Hdata Hindex Hvideo Htitle Hurl Hfetch Hfile Hsend Hfault.
  eexists. split.
  - by eapply select_persistence_fails.
  - simpl. repeat split.
    + set_solver.
    + set_solver.
    + unfold user_outcome; simpl.
      by erewrite (last_edit_end (out w) [_; _; _; _; _] (MsgError fault_msg)
                   : last_edit (out w ++ [_; _; _; _; _; _]) = _).
Qed.

(** The amended C5 at the conversation of the counterexample. *)
Lemma storage_failure_after_delivery_is_reported_witness :
  ∃ w',
    select_and_download
      (Scenario.env_at 0 (SearchDict (Some Scenario.candidates)) None (Some Commit))
      "select_video_0" Scenario.alice Scenario.choosing Scenario.fresh = (inr END, w') ∧
    SendAudio "downloads/abc.mp3"
      "Lofi beats to relax and study to, a title that is longer than fifty characters"
      (get (Some "Chill") "Unknown") ∈ out w' ∧
    LogError ("Erreur de téléchargement : " ++ fault_msg) ∈ out w' ∧
    user_outcome w' = ErrorShown fault_msg ∧
    db w' = db Scenario.fresh.
Proof.
  apply (storage_failure_after_delivery_is_reported
           (Scenario.env_at 0 (SearchDict (Some Scenario.candidates)) None (Some Commit))
           Scenario.alice Scenario.choosing Scenario.fresh "select_video_0" 0%N
           Scenario.lofi _ "https://youtu.be/abc" "downloads/abc.webm"
           {["downloads/abc.mp3" := Scenario.song]} Scenario.song);
    first [discriminate | reflexivity].
Defined.

(** ** Entering the selection stage *)

(** C6 (the code at a failing input). The search answers with a dictionary
    whose ['entries'] list is empty. The guard of line 250 lets it through:
    the bot shows a result keyboard that holds the cancel button only, stores
    the empty list and moves the conversation to [SELECT_RESULT]. *)
Example empty_result_list_enters_selection :
  let e := Scenario.env_at 0 (SearchDict (Some [])) None None in
  run Scenario.alice Scenario.idle
    [(e, CallbackQuery "search"); (e, TextMessage "asdkjasdkj9182")] Scenario.fresh =
  (inr (Session SELECT_RESULT (UserData (Some []))),
   World ∅ Store.empty_db
     [Answer; Edit MsgAskQuery; Reply MsgSearching; Search "ytsearch5:asdkjasdkj9182";
      DeleteSearching; Reply (MsgResults [cancel_button])]).
Proof. reflexivity. Qed.

(** ** What the upsert does to an existing row *)

(** C7 (counterexample). Alice's first download is recorded at time 0. She
    changes her username and downloads again at time 100: the second upsert
    rewrites [join_date] (0 becomes 100) and [username], not only the counter
    and [last_download_date]. *)
Lemma upsert_rewrites_join_date_and_names :
  let disk : gmap string (list byte) := {["downloads/def.mp3" := Scenario.song]} in
  let renamed := TgUser 7 (Some "alice_2") (Some "Alice") None in
  let w1 := snd (_log_user_download (Scenario.calm 0) Scenario.alice Scenario.jazz
                   "downloads/def.mp3" (World disk Store.empty_db [])) in
  let w2 := snd (_log_user_download (Scenario.calm 100) renamed Scenario.jazz
                   "downloads/def.mp3" w1) in
  Store.users (db w1) !! 7 =
    Some (Store.UserRow (Some "alice") (Some "Alice") (Some "") (Some 0) (Some 1) (Some 1)) ∧
  Store.users (db w2) !! 7 =
    Some (Store.UserRow (Some "alice_2") (Some "Alice") (Some "") (Some 100) (Some 2) (Some 101)).
Proof. vm_compute. split; reflexivity. Qed.

(** C7 (amended). When [_log_user_download] succeeds for a user whose row
    exists, the row keeps its key, its counter is the old one plus one (1
    when the old one was NULL), its last-download timestamp is the current
    time, and its name columns hold the names of the user dictionary (the
    empty string for a missing one); the rows of all other users are left as
    they were. *)
Theorem upsert_of_existing_user e user v path w content r :
  fs w !! path = Some content →
  write_fault e = false →
  Store.users (db w) !! id user = Some r →
  ∃ w' r',
    _log_user_download e user v path w = (inr tt, w') ∧
    Store.users (db w') !! id user = Some r' ∧
    Store.total_downloads r' =
      Some (Store.coalesce ((λ n, n + 1) <$> Store.total_downloads r) 1) ∧
    Store.last_download_date r' = Some (now e 1) ∧
    Store.username r' = Some (get (u_username user) "") ∧
    Store.first_name r' = Some (get (u_first_name user) "") ∧
    Store.last_name r' = Some (get (u_last_name user) "") ∧
    (∀ uid, uid ≠ id user → Store.users (db w') !! uid = Store.users (db w) !! uid).
Proof.
  intros Hfile Hfault Hrow. eexists _, _. split; [by apply log_user_download_ok|].
  simpl. unfold Store.select_total_plus_1. rewrite Hrow.
  split; [apply lookup_insert_eq|]. simpl.
  repeat split.
  intros uid Hne. by apply lookup_insert_ne.
Qed.

(** The amended C7 for Alice, who has one download on record. *)
Lemma upsert_of_existing_user_witness :
  ∃ w' r',
    _log_user_download (Scenario.calm 100) Scenario.alice Scenario.jazz
      "downloads/def.mp3" Scenario.returning = (inr tt, w') ∧
    Store.users (db w') !! id Scenario.alice = Some r' ∧
    Store.total_downloads r' =
      Some (Store.coalesce ((λ n, n + 1) <$> Store.total_downloads Scenario.old_row) 1) ∧
    Store.last_download_date r' = Some (now (Scenario.calm 100) 1) ∧
    Store.username r' = Some (get (u_username Scenario.alice) "") ∧
    Store.first_name r' = Some (get (u_first_name Scenario.alice) "") ∧
    Store.last_name r' = Some (get (u_last_name Scenario.alice) "") ∧
    (∀ uid, uid ≠ id Scenario.alice →
       Store.users (db w') !! uid = Store.users (db Scenario.returning) !! uid).
Proof.
  apply (upsert_of_existing_user (Scenario.calm 100) Scenario.alice Scenario.jazz
           "downloads/def.mp3" Scenario.returning Scenario.song Scenario.old_row);
    reflexivity.
Defined.

(** ** What the search shows and what it stores *)

Lemma result_buttons_ok entries : ∀ i w,
  Forall (λ v, is_Some (v_title v)) entries →
  ∃ keyboard,
    result_buttons i entries w = (inr keyboard, w) ∧
    length keyboard = length entries ∧
    ∀ k v title,
      entries !! k = Some v → v_title v = Some title →
      keyboard !! k =
        Some (Button (Text.str_of_N (i + N.of_nat k) ++ ". " ++ Text.take 50 title ++ "...")
                     ("select_video_" ++ Text.str_of_N (i + N.of_nat k - 1))).
Proof.
  induction entries as [|v0 entries IH]; intros i w Hall.
  - exists []. by repeat split.
  - apply Forall_cons in Hall as [[title0 Ht0] Hall].
    destruct (IH (N.succ i) w Hall) as (keyboard & Hrun & Hlen & Hnth).
    eexists. split; [|split].
    + simpl. unfold mbind, ST_bind, bind. rewrite Ht0. simpl. rewrite Hrun. reflexivity.
    + simpl. by rewrite Hlen.
    + intros [|k] v title Hv Ht; simpl in *.
      * injection Hv as <-. rewrite Ht0 in Ht. injection Ht as <-.
        by rewrite N.add_0_r.
      * rewrite (Hnth k v title Hv Ht).
        by replace (N.succ i + N.of_nat k)%N with (i + N.pos (Pos.of_succ_nat k))%N by lia.
Qed.



Lemma take_short n s : (Text.chars s ≤ n)%nat → Text.take n s = s.
Proof.
  revert n. induction s as [|c s IH]; intros n; simpl; [done|].
  destruct (Text.continues c); intros Hn.
  - f_equal. by apply IH.
  - destruct n as [|k]; [lia|]. f_equal. apply IH. lia.
Qed.

(** Characters are counted, not bytes: an accented letter takes two bytes
    and is one character. *)
Lemma take_counts_characters :
  Text.take 3 "Éléphant rose" = "Élé" ∧
  String.length "Élé" = 5%nat ∧ Text.chars "Élé" = 3%nat ∧
  Text.take 3 "Elephant" = "Ele".
Proof. repeat split. Qed.



(** A title is missing somewhere: the loop over the entries raises. *)
Lemma result_buttons_missing entries : ∀ i w,
  ¬ Forall (λ v, is_Some (v_title v)) entries →
  result_buttons i entries w = (inl (KeyError "title"), w).
Proof.
  induction entries as [|v entries IH]; intros i w Hnot.
  - destruct Hnot. constructor.
  - simpl. unfold mbind, ST_bind, bind.
    destruct (v_title v) as [title|] eqn:Htitle; simpl; [|done].
    rewrite IH; [done|]. intros Hall. apply Hnot. constructor; [by eexists | done].
Qed.




(** The keyboard of that search: the long title is cut on the label and kept
    whole in the stored list. *)
Lemma search_for_lofi :
  search_audio Scenario.tube "lofi" (UserData None) Scenario.fresh =
  (inr (SELECT_RESULT, UserData (Some Scenario.candidates)),
   World ∅ Store.empty_db
     [Reply MsgSearching; Search "ytsearch5:lofi"; DeleteSearching;
      Reply (MsgResults
               [Button "1. Lofi beats to relax and study to, a title that is ..."
                  "select_video_0";
                Button "2. Jazz..." "select_video_1";
                cancel_button])]).
Proof. reflexivity. Qed.

(** ** The stats panel *)

Lemma stats_of_known_user e uid w r :
  Store.users (db w) !! uid = Some r →
  read_fault e = false →
  callback_handler e "stats" uid w =
  (inr None,
   World (fs w) (db w)
     (out w ++ [Answer;
                Edit (MsgStats (or_0 (Store.total_downloads r))
                        (Store.count_downloads (db w) uid)
                        (Store.last_download_date r))])).
Proof.
  intros Hrow Hfault. destruct w as [f d o]; simpl in *.
  unfold callback_handler, mbind, ST_bind, bind, with_connection, query, emit,
    read_fault in *; simpl.
  destruct (db_fault e) as [[]|]; try discriminate; simpl;
    unfold Store.select_stats; rewrite Hrow; simpl; by rewrite <- app_assoc.
Qed.

Lemma two_recordings e1 e2 user v1 v2 p1 p2 w content :
  fs w !! p1 = Some content → fs w !! p2 = Some content →
  write_fault e1 = false → write_fault e2 = false →
  (_log_user_download e1 user v1 p1;; _log_user_download e2 user v2 p2) w =
  (inr tt,
   set_db (recorded e2 user v2 (file_digest content)
             (recorded e1 user v1 (file_digest content) (db w))) w).
Proof.
  intros Hp1 Hp2 He1 He2. unfold mbind, ST_bind, bind.
  rewrite (log_user_download_ok e1 user v1 p1 w content Hp1 He1).
  simpl.
  by rewrite (log_user_download_ok e2 user v2 p2
                (set_db (recorded e1 user v1 (file_digest content) (db w)) w)
                content Hp2 He2).
Qed.

(** C10. For a user with a stored row, the value the stats panel shows as
    unique files is the number of rows of [downloads] with that user id. Two
    further downloads of files with the same bytes are recorded as two rows
    with the same fingerprint, and raise the value shown by two. *)
Theorem unique_downloads_is_the_row_count e e1 e2 user v1 v2 p1 p2 w content r :
  Store.users (db w) !! id user = Some r →
  read_fault e = false →
  fs w !! p1 = Some content → fs w !! p2 = Some content →
  write_fault e1 = false → write_fault e2 = false →
  ∃ total last w2 total2 last2 row1 row2,
    callback_handler e "stats" (id user) w =
      (inr None,
       World (fs w) (db w)
         (out w ++ [Answer;
                    Edit (MsgStats total (Store.count_downloads (db w) (id user)) last)])) ∧
    (_log_user_download e1 user v1 p1;; _log_user_download e2 user v2 p2) w = (inr tt, w2) ∧
    Store.downloads (db w2) = (Store.downloads (db w) ++ [row1; row2])%list ∧
    Store.d_file_hash row1 = Some (MD5.md5_hex content) ∧
    Store.d_file_hash row2 = Some (MD5.md5_hex content) ∧
    callback_handler e "stats" (id user) w2 =
      (inr None,
       World (fs w2) (db w2)
         (out w2 ++ [Answer;
                     Edit (MsgStats total2 (Store.count_downloads (db w) (id user) + 2)
                             last2)])).
Proof.
  intros Hrow He Hp1 Hp2 He1 He2.
  pose proof (two_recordings e1 e2 user v1 v2 p1 p2 w content Hp1 Hp2 He1 He2) as Hrun.
  set (d2 := recorded e2 user v2 (file_digest content)
               (recorded e1 user v1 (file_digest content) (db w))) in *.
  assert (is_Some (Store.users d2 !! id user)) as [r2 Hr2].
  { subst d2. unfold recorded; simpl. rewrite lookup_insert_eq. by eexists. }
  assert (Store.count_downloads d2 (id user) = Store.count_downloads (db w) (id user) + 2)
    as Hcount.
  { subst d2. unfold recorded.
    rewrite count_downloads_insert, count_downloads_upsert.
    rewrite count_downloads_insert, count_downloads_upsert.
    case_decide; [lia | done]. }
  eexists _, _, (set_db d2 w), _, _, _, _.
  split; [by apply stats_of_known_user|].
  split; [exact Hrun|].
  split; [subst d2; unfold recorded; simpl; by rewrite <- app_assoc|].
  simpl. rewrite file_digest_md5. split; [done|]. split; [done|].
  rewrite <- Hcount. by apply (stats_of_known_user e (id user) (set_db d2 w) r2).
Qed.

(** C10 for Alice, who downloads the same audio twice more. *)
Lemma unique_downloads_is_the_row_count_witness :
  ∃ total last w2 total2 last2 row1 row2,
    callback_handler (Scenario.calm 200) "stats" (id Scenario.alice) Scenario.returning =
      (inr None,
       World (fs Scenario.returning) (db Scenario.returning)
         (out Scenario.returning ++
            [Answer;
             Edit (MsgStats total
                     (Store.count_downloads (db Scenario.returning) (id Scenario.alice))
                     last)])) ∧
    (_log_user_download (Scenario.calm 100) Scenario.alice Scenario.jazz "downloads/def.mp3";;
     _log_user_download (Scenario.calm 150) Scenario.alice Scenario.lofi "downloads/def.mp3")
      Scenario.returning = (inr tt, w2) ∧
    Store.downloads (db w2) =
      (Store.downloads (db Scenario.returning) ++ [row1; row2])%list ∧
    Store.d_file_hash row1 = Some (MD5.md5_hex Scenario.song) ∧
    Store.d_file_hash row2 = Some (MD5.md5_hex Scenario.song) ∧
    callback_handler (Scenario.calm 200) "stats" (id Scenario.alice) w2 =
      (inr None,
       World (fs w2) (db w2)
         (out w2 ++
            [Answer;
             Edit (MsgStats total2
                     (Store.count_downloads (db Scenario.returning) (id Scenario.alice) + 2)
                     last2)])).
Proof.
  apply (unique_downloads_is_the_row_count (Scenario.calm 200) (Scenario.calm 100)
           (Scenario.calm 150) Scenario.alice Scenario.jazz Scenario.lofi
           "downloads/def.mp3" "downloads/def.mp3" Scenario.returning Scenario.song
           Scenario.old_row);
    reflexivity.
Defined.

(** ** Instances of the conditional statements *)

(** C3 for index 2 against a list of two candidates. *)
Lemma out_of_range_selection_is_rejected_witness :
  ∃ m w',
    outcome_of m = InvalidSelection ∧
    w' = World (fs Scenario.fresh) (db Scenario.fresh) (out Scenario.fresh ++ [Answer; Edit m]) ∧
    select_and_download (Scenario.calm 0) ("select_video_" ++ Text.str_of_Z 2)
      Scenario.alice Scenario.choosing Scenario.fresh = (inr END, w') ∧
    handle (Scenario.calm 0) Scenario.alice (Session SELECT_RESULT Scenario.choosing)
      (CallbackQuery ("select_video_" ++ Text.str_of_Z 2)) Scenario.fresh =
      (inr (Session END Scenario.choosing), w') ∧
    user_outcome w' = InvalidSelection ∧
    fetches (out w') = fetches (out Scenario.fresh).
Proof.
  apply (out_of_range_selection_is_rejected (Scenario.calm 0) Scenario.alice
           Scenario.choosing Scenario.fresh 2).
  simpl. lia.
Defined.

(** C8 for two files, on different disks, that hold the same five bytes. *)
Lemma fingerprint_is_chunked_and_deterministic_witness :
  ∃ digest,
    _calculate_file_hash "downloads/def.mp3" Scenario.returning =
      (inr digest, Scenario.returning) ∧
    _calculate_file_hash "copy.mp3"
      (World {["copy.mp3" := Scenario.song]} Store.empty_db []) =
      (inr digest, World {["copy.mp3" := Scenario.song]} Store.empty_db []) ∧
    digest = MD5.md5_hex Scenario.song ∧
    String.length digest = 32%nat ∧
    Z.of_nat CHUNK = 4096 ∧
    Forall (λ n, (n ≤ CHUNK)%nat) (f_reads (snd (hash_file Scenario.song))) ∧
    sum_list (f_reads (snd (hash_file Scenario.song))) = length Scenario.song.
Proof.
  apply (fingerprint_is_chunked_and_deterministic Scenario.returning
           (World {["copy.mp3" := Scenario.song]} Store.empty_db [])
           "downloads/def.mp3" "copy.mp3" Scenario.song);
    reflexivity.
Defined.

(** * Further properties of the handlers *)

(** ** Every way a valid selection can go *)

Section Selection.

Variables (e : env) (user : tg_user) (ud : user_data) (w : world).
Variables (data : string) (index : N) (video : Dicts.video).

Hypothesis Hdata : data ≠ "cancel".
Hypothesis Hindex : match_select_video data = Some index.
Hypothesis Hvideo : get (search_results ud) [] !! N.to_nat index = Some video.

Ltac enter :=
  unfold select_and_download;
  rewrite decide_False by done;
  unfold mbind, ST_bind, bind, try_except, emit at 1; simpl;
  rewrite Hindex, (index_in_range ud index video Hvideo);
  unfold list_item; rewrite Hvideo; simpl.

(** The candidate has no title. *)
Lemma select_without_title :
  v_title video = None →
  select_and_download e data user ud w =
  (inr END,
   World (fs w) (db w)
     (out w ++ [Answer; LogError ("Erreur de téléchargement : " ++ "'title'");
                Edit (MsgError "'title'")])).
Proof.
  intros Htitle. enter. rewrite Htitle. simpl. unfold emit. simpl.
  by rewrite <- !app_assoc.
Qed.

(** The candidate has a title but no address. *)
Lemma select_without_url title :
  v_title video = Some title → v_webpage_url video = None →
  select_and_download e data user ud w =
  (inr END,
   World (fs w) (db w)
     (out w ++ [Answer; Edit (MsgDownloading title);
                LogError ("Erreur de téléchargement : " ++ "'webpage_url'");
                Edit (MsgError "'webpage_url'")])).
Proof.
  intros Htitle Hurl. enter. rewrite Htitle. simpl. unfold emit. simpl.
  rewrite Hurl. simpl. unfold emit. simpl.
  by rewrite <- !app_assoc.
Qed.

(** yt-dlp raises. *)
Lemma select_fetch_fails title url msg :
  v_title video = Some title → v_webpage_url video = Some url →
  fetch_info e url = FetchRaises msg →
  select_and_download e data user ud w =
  (inr END,
   World (fs w) (db w)
     (out w ++ [Answer; Edit (MsgDownloading title); Fetch url;
                LogError ("Erreur de téléchargement : " ++ msg);
                Edit (MsgError msg)])).
Proof.
  intros Htitle Hurl Hfetch. enter. rewrite Htitle. simpl. unfold emit. simpl.
  rewrite Hurl. simpl. unfold download, mbind, ST_bind, bind, emit. simpl.
  rewrite Hfetch. simpl. by rewrite <- !app_assoc.
Qed.

(** yt-dlp returns, but the file the bot computes the name of is not
    there. *)
Lemma select_file_missing title url prepared written :
  v_title video = Some title → v_webpage_url video = Some url →
  fetch_info e url = FetchOk prepared written →
  (written ∪ fs w) !! Text.replace ".webm" ".mp3" prepared = None →
  select_and_download e data user ud w =
  (inr END,
   World (written ∪ fs w) (db w)
     (out w ++ [Answer; Edit (MsgDownloading title); Fetch url;
                LogError ("Erreur de téléchargement : " ++
                          str_exn (FileNotFoundError (Text.replace ".webm" ".mp3" prepared)));
                Edit (MsgError
                        (str_exn (FileNotFoundError (Text.replace ".webm" ".mp3" prepared))))])).
Proof.
  intros Htitle Hurl Hfetch Hfile. enter. rewrite Htitle. simpl. unfold emit. simpl.
  rewrite Hurl. simpl. unfold download, mbind, ST_bind, bind, emit. simpl.
  rewrite Hfetch. simpl. unfold open_file. simpl. rewrite Hfile. simpl.
  by rewrite <- !app_assoc.
Qed.

End Selection.

Lemma deliveries_app evs evs' :
  deliveries (evs ++ evs') = (deliveries evs ++ deliveries evs')%list.
Proof. apply omap_app. Qed.

Lemma logged_app evs evs' : logged (evs ++ evs') = (logged evs ++ logged evs')%list.
Proof. apply omap_app. Qed.

(** What every run of [select_and_download] has in common. *)
Lemma select_summary e data user ud w :
  ∃ w' evs,
    select_and_download e data user ud w = (inr END, w') ∧
    out w' = (out w ++ evs)%list ∧
    (length (fetches evs) ≤ 1)%nat ∧
    (length (deliveries evs) ≤ length (fetches evs))%nat ∧
    (db w' = db w ∨
     length (deliveries evs) = 1%nat ∧
     ∃ v content, db w' = recorded e user v (file_digest content) (db w)) ∧
    (fs w' = fs w ∨ length (fetches evs) = 1%nat).
Proof.
  destruct (decide (data = "cancel")) as [->|Hdata].
  { eexists _, [Answer; Edit MsgCancelled]. split; [reflexivity|]. simpl.
    repeat split; first [done | lia | by left | by rewrite <- app_assoc]. }
  destruct (match_select_video data) as [index|] eqn:Hindex.
  2: { destruct (select_invalid e data user ud w Hdata) as (m & _ & ->);
         [by rewrite Hindex|].
       eexists _, [Answer; Edit m]. split; [reflexivity|]. split; [reflexivity|].
       simpl. repeat split; first [done | lia | by left]. }
  destruct (decide (N.of_nat (length (get (search_results ud) [])) ≤ index)%N) as [Hge|Hlt].
  { destruct (select_invalid e data user ud w Hdata) as (m & _ & ->);
      [by rewrite Hindex|].
    eexists _, [Answer; Edit m]. split; [reflexivity|]. split; [reflexivity|].
       simpl. repeat split; first [done | lia | by left]. }
  destruct (lookup_lt_is_Some_2 (get (search_results ud) []) (N.to_nat index))
    as [video Hvideo]; [lia|].
  destruct (v_title video) as [title|] eqn:Htitle.
  2: { rewrite (select_without_title e user ud w data index video) by done.
       eexists _, [_; _; _]. split; [reflexivity|]. split; [reflexivity|].
       simpl. repeat split; first [done | lia | by left]. }
  destruct (v_webpage_url video) as [url|] eqn:Hurl.
  2: { rewrite (select_without_url e user ud w data index video Hdata Hindex Hvideo title)
         by done.
       eexists _, [_; _; _; _]. split; [reflexivity|]. split; [reflexivity|].
       simpl. repeat split; first [done | lia | by left]. }
  destruct (fetch_info e url) as [msg|prepared written] eqn:Hfetch.
  { rewrite (select_fetch_fails e user ud w data index video Hdata Hindex Hvideo
               title url msg) by done.
    eexists _, [_; _; _; _; _]. split; [reflexivity|]. split; [reflexivity|].
       simpl. repeat split; first [done | lia | by left]. }
  destruct ((written ∪ fs w) !! Text.replace ".webm" ".mp3" prepared) as [content|] eqn:Hfile.
  2: { rewrite (select_file_missing e user ud w data index video Hdata Hindex Hvideo
                  title url prepared written) by done.
       eexists _, [_; _; _; _; _]. split; [reflexivity|]. split; [reflexivity|].
       simpl. repeat split; first [done | lia | by left]. }
  destruct (send_audio_error e) as [msg|] eqn:Hsend.
  { rewrite (select_delivery_fails e user ud w data index video title url prepared
               written content Hdata Hindex Hvideo Htitle Hurl Hfetch Hfile msg Hsend).
    eexists _, [_; _; _; _; _]. split; [reflexivity|]. split; [reflexivity|].
       simpl. repeat split; first [done | lia | by left]. }
  destruct (write_fault e) eqn:Hfault.
  { rewrite (select_persistence_fails e user ud w data index video title url prepared
               written content Hdata Hindex Hvideo Htitle Hurl Hfetch Hfile Hsend Hfault).
    eexists _, [_; _; _; _; _; _]. split; [reflexivity|]. split; [reflexivity|].
       simpl. repeat split; first [done | lia | by left]. }
  rewrite (select_succeeds e user ud w data index video title url prepared
             written content Hdata Hindex Hvideo Htitle Hurl Hfetch Hfile Hsend Hfault).
  eexists _, [_; _; _; _; _]. split; [reflexivity|]. split; [reflexivity|]. simpl.
  split; [lia|]. split; [lia|].
  split; [right; split; [done|]; by eexists _, _ | by right].
Qed.

(** X1. In one call [select_and_download] downloads at most once and
    delivers at most once, and only after it has downloaded; it writes to
    the database only when it has delivered, and the disk changes only when
    it has started a download. A call that returns, returns [END]. *)
Theorem selection_fetches_and_delivers_at_most_once e data user ud w :
  ∃ evs,
    out (snd (select_and_download e data user ud w)) = (out w ++ evs)%list ∧
    (length (fetches evs) ≤ 1)%nat ∧
    (length (deliveries evs) ≤ length (fetches evs))%nat ∧
    (db (snd (select_and_download e data user ud w)) = db w ∨
     length (deliveries evs) = 1%nat) ∧
    (fs (snd (select_and_download e data user ud w)) = fs w ∨
     length (fetches evs) = 1%nat) ∧
    match fst (select_and_download e data user ud w) with
    | inr st => st = END
    | inl _ => True
    end.
Proof.
  destruct (select_summary e data user ud w)
    as (w' & evs & Hrun & Hout & Hf & Hd & Hdb & Hfs).
  exists evs. rewrite Hrun. simpl. repeat split; try done.
  destruct Hdb as [?|[? _]]; auto.
Qed.

(** X2. A stored candidate that lacks its title or its address is never
    downloaded: the selection ends with the name of the missing key shown to
    the user as the error text and written to the log, and the disk and the
    database stay as they were. *)
Theorem candidate_without_key_is_not_fetched e user ud w data index video :
  data ≠ "cancel" →
  match_select_video data = Some index →
  get (search_results ud) [] !! N.to_nat index = Some video →
  v_title video = None ∨ v_webpage_url video = None →
  ∃ key w',
    key = match v_title video with Some _ => "webpage_url" | None => "title" end ∧
    select_and_download e data user ud w = (inr END, w') ∧
    user_outcome w' = ErrorShown ("'" ++ key ++ "'") ∧
    logged (out w') = (logged (out w) ++ [("Erreur de téléchargement : '" ++ key ++ "'")%string])%list ∧
    fetches (out w') = fetches (out w) ∧
    fs w' = fs w ∧ db w' = db w.
Proof.
  intros Hdata Hindex Hvideo Hkey.
  destruct (v_title video) as [title|] eqn:Htitle.
  - destruct Hkey as [?|Hurl]; [done|].
    eexists _, _. split; [reflexivity|]. split.
    { by apply (select_without_url e user ud w data index video Hdata Hindex Hvideo title). }
    simpl. repeat split.
    + unfold user_outcome; simpl.
      by rewrite (last_edit_end (out w) [_; _; _] _ : last_edit (out w ++ [_; _; _; _]) = _).
    + by rewrite logged_app.
    + rewrite fetches_app. simpl. by rewrite app_nil_r.
  - eexists _, _. split; [reflexivity|]. split.
    { by apply (select_without_title e user ud w data index video). }
    simpl. repeat split.
    + unfold user_outcome; simpl.
      by rewrite (last_edit_end (out w) [_; _] _ : last_edit (out w ++ [_; _; _]) = _).
    + by rewrite logged_app.
    + rewrite fetches_app. simpl. by rewrite app_nil_r.
Qed.

(** X2 for a candidate list whose second entry has no address. *)
Lemma candidate_without_key_is_not_fetched_witness :
  ∃ key w',
    key = match v_title Scenario.unreachable with Some _ => "webpage_url" | None => "title" end ∧
    select_and_download (Scenario.calm 0) "select_video_1" Scenario.alice
      (UserData (Some [Scenario.lofi; Scenario.unreachable])) Scenario.fresh = (inr END, w') ∧
    user_outcome w' = ErrorShown ("'" ++ key ++ "'") ∧
    logged (out w') =
      (logged (out Scenario.fresh) ++ [("Erreur de téléchargement : '" ++ key ++ "'")%string])%list ∧
    fetches (out w') = fetches (out Scenario.fresh) ∧
    fs w' = fs Scenario.fresh ∧ db w' = db Scenario.fresh.
Proof.
  apply (candidate_without_key_is_not_fetched (Scenario.calm 0) Scenario.alice
           (UserData (Some [Scenario.lofi; Scenario.unreachable])) Scenario.fresh
           "select_video_1" 1%N Scenario.unreachable).
  - discriminate.
  - reflexivity.
  - reflexivity.
  - right. reflexivity.
Defined.

(** X3. When yt-dlp raises on the download, nothing is delivered and nothing
    is recorded: the user is shown the text of the exception, the same text
    is logged, and the conversation ends. *)
Theorem failed_fetch_delivers_and_records_nothing e user ud w data index video title url msg :
  data ≠ "cancel" →
  match_select_video data = Some index →
  get (search_results ud) [] !! N.to_nat index = Some video →
  v_title video = Some title →
  v_webpage_url video = Some url →
  fetch_info e url = FetchRaises msg →
  ∃ w',
    select_and_download e data user ud w = (inr END, w') ∧
    user_outcome w' = ErrorShown msg ∧
    fetches (out w') = (fetches (out w) ++ [url])%list ∧
    deliveries (out w') = deliveries (out w) ∧
    logged (out w') = (logged (out w) ++ [("Erreur de téléchargement : " ++ msg)%string])%list ∧
    db w' = db w.
Proof.
  intros Hdata Hindex Hvideo Htitle Hurl Hfetch. eexists. split.
  { by apply (select_fetch_fails e user ud w data index video Hdata Hindex Hvideo
                title url msg). }
  simpl. repeat split.
  - unfold user_outcome; simpl.
    by rewrite (last_edit_end (out w) [_; _; _; _] _ : last_edit (out w ++ [_; _; _; _; _]) = _).
  - by rewrite fetches_app.
  - rewrite deliveries_app. simpl. by rewrite app_nil_r.
  - by rewrite logged_app.
Qed.

(** X3 for a download that yt-dlp refuses as too large. *)
Lemma failed_fetch_delivers_and_records_nothing_witness :
  ∃ w',
    select_and_download (Scenario.env_fetching (FetchRaises "File is larger than max-filesize"))
      "select_video_0" Scenario.alice Scenario.choosing Scenario.fresh = (inr END, w') ∧
    user_outcome w' = ErrorShown "File is larger than max-filesize" ∧
    fetches (out w') = (fetches (out Scenario.fresh) ++ ["https://youtu.be/abc"])%list ∧
    deliveries (out w') = deliveries (out Scenario.fresh) ∧
    logged (out w') =
      (logged (out Scenario.fresh) ++
       [("Erreur de téléchargement : " ++ "File is larger than max-filesize")%string])%list ∧
    db w' = db Scenario.fresh.
Proof.
  apply (failed_fetch_delivers_and_records_nothing
           (Scenario.env_fetching (FetchRaises "File is larger than max-filesize"))
           Scenario.alice Scenario.choosing Scenario.fresh "select_video_0" 0%N Scenario.lofi
           "Lofi beats to relax and study to, a title that is longer than fifty characters"
           "https://youtu.be/abc" "File is larger than max-filesize");
    first [discriminate | reflexivity].
Defined.

(** [repr] of a file name: a plain name goes between single quotes, a
    backslash is doubled, and a name with a single quote goes between double
    quotes. *)
Lemma py_repr_of_file_names :
  Text.py_repr "downloads/abc.m4a" = "'downloads/abc.m4a'" ∧
  Text.py_repr "C:\bot\downloads\abc.m4a" = "'C:\\bot\\downloads\\abc.m4a'" ∧
  Text.py_repr "downloads/it's.m4a" =
    String Text.double_quote ("downloads/it's.m4a" ++ String Text.double_quote "").
Proof. repeat split. Qed.

(** X4. The bot looks for the downloaded file under the name yt-dlp
    prepared, with [.webm] replaced by [.mp3]. When no file of that name is
    on disk after the download, nothing is delivered or recorded, the user is
    shown the text of the file-not-found error, the same text that is logged
    (for a name made of ASCII characters: the errno, the message and the
    [repr] of the name), and every file the download wrote is still on disk
    when the handler returns. *)
Theorem missing_artifact_is_reported_and_leftovers_stay
    e user ud w data index video title url prepared written :
  data ≠ "cancel" →
  match_select_video data = Some index →
  get (search_results ud) [] !! N.to_nat index = Some video →
  v_title video = Some title →
  v_webpage_url video = Some url →
  fetch_info e url = FetchOk prepared written →
  (written ∪ fs w) !! Text.replace ".webm" ".mp3" prepared = None →
  ∃ w' text,
    select_and_download e data user ud w = (inr END, w') ∧
    user_outcome w' = ErrorShown text ∧
    logged (out w') =
      (logged (out w) ++ [("Erreur de téléchargement : " ++ text)%string])%list ∧
    (Text.is_ascii (Text.replace ".webm" ".mp3" prepared) = true →
     text = "[Errno 2] No such file or directory: "
            ++ Text.py_repr (Text.replace ".webm" ".mp3" prepared)) ∧
    deliveries (out w') = deliveries (out w) ∧
    db w' = db w ∧
    (∀ path bytes, written !! path = Some bytes → fs w' !! path = Some bytes).
Proof.
  intros Hdata Hindex Hvideo Htitle Hurl Hfetch Hfile. eexists _, _. split.
  { by apply (select_file_missing e user ud w data index video Hdata Hindex Hvideo
                title url prepared written). }
  simpl. repeat split.
  - unfold user_outcome; simpl.
    by rewrite (last_edit_end (out w) [_; _; _; _] _ : last_edit (out w ++ [_; _; _; _; _]) = _).
  - rewrite logged_app. simpl. done.
  - rewrite deliveries_app. simpl. by rewrite app_nil_r.
  - intros path bytes Hpath. by apply lookup_union_Some_l.
Qed.

(** X4 for an [.m4a] stream: yt-dlp prepared [abc.m4a], ffmpeg left
    [abc.mp3], and the bot looks for [abc.m4a]. *)
Lemma missing_artifact_is_reported_and_leftovers_stay_witness :
  ∃ w' text,
    select_and_download (Scenario.env_fetching Scenario.m4a) "select_video_0" Scenario.alice
      Scenario.choosing Scenario.fresh = (inr END, w') ∧
    user_outcome w' = ErrorShown text ∧
    logged (out w') =
      (logged (out Scenario.fresh) ++ [("Erreur de téléchargement : " ++ text)%string])%list ∧
    (Text.is_ascii (Text.replace ".webm" ".mp3" "downloads/abc.m4a") = true →
     text = "[Errno 2] No such file or directory: "
            ++ Text.py_repr (Text.replace ".webm" ".mp3" "downloads/abc.m4a")) ∧
    deliveries (out w') = deliveries (out Scenario.fresh) ∧
    db w' = db Scenario.fresh ∧
    (∀ path bytes,
       ({["downloads/abc.mp3" := Scenario.song]} : gmap string (list byte)) !! path = Some bytes →
       fs w' !! path = Some bytes).
Proof.
  apply (missing_artifact_is_reported_and_leftovers_stay
           (Scenario.env_fetching Scenario.m4a) Scenario.alice Scenario.choosing
           Scenario.fresh "select_video_0" 0%N Scenario.lofi
           "Lofi beats to relax and study to, a title that is longer than fifty characters"
           "https://youtu.be/abc" "downloads/abc.m4a"
           {["downloads/abc.mp3" := Scenario.song]});
    first [discriminate | reflexivity].
Defined.

(** X5. A selection on which every step works delivers the file once,
    appends one download row that carries the user's id, the video's id and
    title and the MD5 digest of exactly the bytes that were delivered,
    removes the delivered file and no other, logs nothing and shows the
    success message. *)
Theorem served_download_is_recorded_once_and_removed
    e user ud w data index video title url prepared written content :
  data ≠ "cancel" →
  match_select_video data = Some index →
  get (search_results ud) [] !! N.to_nat index = Some video →
  v_title video = Some title →
  v_webpage_url video = Some url →
  fetch_info e url = FetchOk prepared written →
  (written ∪ fs w) !! Text.replace ".webm" ".mp3" prepared = Some content →
  send_audio_error e = None →
  write_fault e = false →
  ∃ w' row,
    select_and_download e data user ud w = (inr END, w') ∧
    user_outcome w' = Success ∧
    deliveries (out w') =
      (deliveries (out w) ++ [Text.replace ".webm" ".mp3" prepared])%list ∧
    logged (out w') = logged (out w) ∧
    fs w' !! Text.replace ".webm" ".mp3" prepared = None ∧
    (∀ path, path ≠ Text.replace ".webm" ".mp3" prepared →
       fs w' !! path = (written ∪ fs w) !! path) ∧
    Store.downloads (db w') = (Store.downloads (db w) ++ [row])%list ∧
    Store.d_user_id row = Some (id user) ∧
    Store.d_video_id row = Some (get (v_id video) "unknown") ∧
    Store.d_title row = Some title ∧
    Store.d_file_hash row = Some (MD5.md5_hex content).
Proof.
  intros Hdata Hindex Hvideo Htitle Hurl Hfetch Hfile Hsend Hfault. eexists _, _. split.
  { by apply (select_succeeds e user ud w data index video title url prepared written
                content). }
  simpl. repeat split.
  - unfold user_outcome; simpl.
    by rewrite (last_edit_end (out w) [_; _; _; _] _ : last_edit (out w ++ [_; _; _; _; _]) = _).
  - by rewrite deliveries_app.
  - rewrite logged_app. simpl. by rewrite app_nil_r.
  - apply lookup_delete_eq.
  - intros path Hne. by apply lookup_delete_ne.
  - by rewrite Htitle.
  - by rewrite file_digest_md5.
Qed.

(** X5 for Alice's first download. *)
Lemma served_download_is_recorded_once_and_removed_witness :
  ∃ w' row,
    select_and_download (Scenario.calm 0) "select_video_0" Scenario.alice Scenario.choosing
      Scenario.fresh = (inr END, w') ∧
    user_outcome w' = Success ∧
    deliveries (out w') =
      (deliveries (out Scenario.fresh) ++
       [Text.replace ".webm" ".mp3" "downloads/abc.webm"])%list ∧
    logged (out w') = logged (out Scenario.fresh) ∧
    fs w' !! Text.replace ".webm" ".mp3" "downloads/abc.webm" = None ∧
    (∀ path, path ≠ Text.replace ".webm" ".mp3" "downloads/abc.webm" →
       fs w' !! path =
       (({["downloads/abc.mp3" := Scenario.song]} : gmap string (list byte))
          ∪ fs Scenario.fresh) !! path) ∧
    Store.downloads (db w') = (Store.downloads (db Scenario.fresh) ++ [row])%list ∧
    Store.d_user_id row = Some (id Scenario.alice) ∧
    Store.d_video_id row = Some (get (v_id Scenario.lofi) "unknown") ∧
    Store.d_title row =
      Some "Lofi beats to relax and study to, a title that is longer than fifty characters" ∧
    Store.d_file_hash row = Some (MD5.md5_hex Scenario.song).
Proof.
  apply (served_download_is_recorded_once_and_removed (Scenario.calm 0) Scenario.alice
           Scenario.choosing Scenario.fresh "select_video_0" 0%N Scenario.lofi
           "Lofi beats to relax and study to, a title that is longer than fifty characters"
           "https://youtu.be/abc" "downloads/abc.webm"
           {["downloads/abc.mp3" := Scenario.song]} Scenario.song);
    first [discriminate | reflexivity].
Defined.

(** ** From a result button to its candidate *)

(** A selection that names a candidate with a title and an address shows the
    whole title, downloads from that address, and downloads nothing else. *)
Lemma select_valid_prefix e user ud w data index video title url :
  data ≠ "cancel" →
  match_select_video data = Some index →
  get (search_results ud) [] !! N.to_nat index = Some video →
  v_title video = Some title →
  v_webpage_url video = Some url →
  ∃ w' rest,
    select_and_download e data user ud w = (inr END, w') ∧
    out w' = (out w ++ [Answer; Edit (MsgDownloading title); Fetch url] ++ rest)%list ∧
    fetches rest = [].
Proof.
  intros Hdata Hindex Hvideo Htitle Hurl.
  destruct (fetch_info e url) as [msg|prepared written] eqn:Hfetch.
  { rewrite (select_fetch_fails e user ud w data index video Hdata Hindex Hvideo
               title url msg) by done.
    by eexists _, [_; _]. }
  destruct ((written ∪ fs w) !! Text.replace ".webm" ".mp3" prepared) as [content|] eqn:Hfile.
  2: { rewrite (select_file_missing e user ud w data index video Hdata Hindex Hvideo
                  title url prepared written) by done.
       by eexists _, [_; _]. }
  destruct (send_audio_error e) as [msg|] eqn:Hsend.
  { rewrite (select_delivery_fails e user ud w data index video title url prepared
               written content Hdata Hindex Hvideo Htitle Hurl Hfetch Hfile msg Hsend).
    by eexists _, [_; _]. }
  destruct (write_fault e) eqn:Hfault.
  { rewrite (select_persistence_fails e user ud w data index video title url prepared
               written content Hdata Hindex Hvideo Htitle Hurl Hfetch Hfile Hsend Hfault).
    by eexists _, [_; _; _]. }
  rewrite (select_succeeds e user ud w data index video title url prepared
             written content Hdata Hindex Hvideo Htitle Hurl Hfetch Hfile Hsend Hfault).
  by eexists _, [_; _].
Qed.

(** X6. The callback data behind the result button number [k+1] is read back
    by [select_and_download] as index [k], and pressing that button, at any
    later time and whatever the collaborators do then, shows the whole title
    of the [k]-th stored entry and downloads from the address of that entry
    and from no other. *)
Theorem result_button_downloads_its_candidate
    e1 query ud w1 entries e2 user w2 k v title url :
  search_info e1 (search_request query) = SearchDict (Some entries) →
  Forall (λ v, is_Some (v_title v)) (take MAX_SEARCH_RESULTS entries) →
  (k < MAX_SEARCH_RESULTS)%nat →
  entries !! k = Some v →
  v_title v = Some title →
  v_webpage_url v = Some url →
  ∃ keyboard ud' w1' b w2' rest,
    search_audio e1 query ud w1 = (inr (SELECT_RESULT, ud'), w1') ∧
    last (out w1') = Some (Reply (MsgResults (keyboard ++ [cancel_button]))) ∧
    keyboard !! k = Some b ∧
    match_select_video (callback_data b) = Some (N.of_nat k) ∧
    select_and_download e2 (callback_data b) user ud' w2 = (inr END, w2') ∧
    out w2' = (out w2 ++ [Answer; Edit (MsgDownloading title); Fetch url] ++ rest)%list ∧
    fetches rest = [].
Proof.
  intros Hreply Htitles Hk Hv Htitle Hurl.
  destruct (result_buttons_ok (take MAX_SEARCH_RESULTS entries) 1
              (World (fs w1) (db w1)
                 (out w1 ++ [Reply MsgSearching; Search (search_request query); DeleteSearching]))
              Htitles)
    as (keyboard & Hrun & Hlen & Hnth).
  specialize (Hnth k v title). rewrite lookup_take_lt in Hnth by done.
  specialize (Hnth Hv Htitle).
  replace (1 + N.of_nat k - 1)%N with (N.of_nat k) in Hnth by lia.
  destruct (select_valid_prefix e2 user (UserData (Some entries)) w2
              ("select_video_" ++ Text.str_of_N (N.of_nat k)) (N.of_nat k) v title url)
    as (w2' & rest & Hsel & Hout & Hrest); try done.
  { apply match_select_video_N. }
  { simpl. by rewrite Nat2N.id. }
  eexists keyboard, _, _, _, w2', rest.
  split; [|split; [|split; [exact Hnth|split; [apply match_select_video_N|done]]]].
  - unfold search_audio, mbind, ST_bind, bind, try_except, emit; simpl.
    rewrite Hreply; simpl. rewrite <- !app_assoc; simpl.
    rewrite Hrun. simpl. reflexivity.
  - simpl. by rewrite last_snoc.
Qed.

(** X6 for the second of two results. *)
Lemma result_button_downloads_its_candidate_witness :
  ∃ keyboard ud' w1' b w2' rest,
    search_audio (Scenario.calm 0) "lofi" (UserData None) Scenario.fresh =
      (inr (SELECT_RESULT, ud'), w1') ∧
    last (out w1') = Some (Reply (MsgResults (keyboard ++ [cancel_button]))) ∧
    keyboard !! 1%nat = Some b ∧
    match_select_video (callback_data b) = Some (N.of_nat 1) ∧
    select_and_download (Scenario.calm 40) (callback_data b) Scenario.alice ud'
      Scenario.returning = (inr END, w2') ∧
    out w2' =
      (out Scenario.returning ++
       [Answer; Edit (MsgDownloading "Jazz"); Fetch "https://youtu.be/def"] ++ rest)%list ∧
    fetches rest = [].
Proof.
  apply (result_button_downloads_its_candidate (Scenario.calm 0) "lofi" (UserData None)
           Scenario.fresh Scenario.candidates (Scenario.calm 40) Scenario.alice
           Scenario.returning 1%nat Scenario.jazz "Jazz" "https://youtu.be/def").
  - reflexivity.
  - simpl. repeat constructor; eexists; reflexivity.
  - unfold MAX_SEARCH_RESULTS. lia.
  - reflexivity.
  - reflexivity.
  - reflexivity.
Defined.

(** ** Handlers that only talk *)

Section Quiet.

Lemma quiet_ret {A} (a : A) : quiet (mret a).
Proof. intros w. repeat split. exists []. by rewrite app_nil_r. Qed.

Lemma quiet_raise {A} ex : quiet (raise ex : M A).
Proof. intros w. repeat split. exists []. by rewrite app_nil_r. Qed.

Lemma quiet_emit ev : harmless ev → quiet (emit ev).
Proof. intros Hev w. repeat split. exists [ev]. split; [done | by constructor]. Qed.

Lemma quiet_bind {A B} (m : M A) (k : A → M B) :
  quiet m → (∀ a, quiet (k a)) → quiet (m ≫= k).
Proof.
  intros Hm Hk w. destruct (Hm w) as (Hfs & Hdb & evs & Hout & Hevs).
  unfold mbind, ST_bind, bind. destruct (m w) as [[ex|a] w1]; simpl in *.
  - repeat split; try done. by exists evs.
  - destruct (Hk a w1) as (Hfs' & Hdb' & evs' & Hout' & Hevs').
    rewrite Hfs', Hdb', Hout', Hfs, Hdb, Hout. repeat split.
    exists (evs ++ evs')%list. split; [by rewrite app_assoc | by apply Forall_app].
Qed.

Lemma quiet_try {A} (m : M A) (handler : exn → M A) :
  quiet m → (∀ ex, quiet (handler ex)) → quiet (try_except m handler).
Proof.
  intros Hm Hh w. destruct (Hm w) as (Hfs & Hdb & evs & Hout & Hevs).
  unfold try_except. destruct (m w) as [[ex|a] w1]; simpl in *.
  - destruct (Hh ex w1) as (Hfs' & Hdb' & evs' & Hout' & Hevs').
    rewrite Hfs', Hdb', Hout', Hfs, Hdb, Hout. repeat split.
    exists (evs ++ evs')%list. split; [by rewrite app_assoc | by apply Forall_app].
  - repeat split; try done. by exists evs.
Qed.

Lemma quiet_item {A} key (field : option A) : quiet (item key field).
Proof. destruct field; [apply quiet_ret | apply quiet_raise]. Qed.

Lemma quiet_query {A} e (select : Store.database → A) :
  quiet (with_connection e (query e select)).
Proof.
  intros w. unfold with_connection, query.
  repeat case_decide; simpl; repeat split; exists []; by rewrite app_nil_r.
Qed.

Lemma quiet_result_buttons entries : ∀ i, quiet (result_buttons i entries).
Proof.
  induction entries as [|v entries IH]; intros i; simpl; [apply quiet_ret|].
  apply quiet_bind; [apply quiet_item|]. intros title.
  apply quiet_bind; [apply IH|]. intros keyboard. apply quiet_ret.
Qed.

Lemma quiet_start_command : quiet start_command.
Proof. apply quiet_bind; [by apply quiet_emit|]. intros _. apply quiet_ret. Qed.

Lemma quiet_callback_handler e data uid : quiet (callback_handler e data uid).
Proof.
  unfold callback_handler. apply quiet_bind; [by apply quiet_emit|]. intros _.
  repeat case_decide;
    repeat first
      [ apply quiet_ret | by apply quiet_emit | apply quiet_query
      | apply quiet_bind; [|intros ?] | case_match ].
Qed.

Lemma quiet_search_audio e query ud : quiet (search_audio e query ud).
Proof.
  unfold search_audio. apply quiet_bind; [by apply quiet_emit|]. intros _.
  apply quiet_try.
  - apply quiet_bind; [by apply quiet_emit|]. intros _.
    repeat first
      [ apply quiet_ret | by apply quiet_emit | apply quiet_raise
      | apply quiet_result_buttons
      | apply quiet_bind; [|intros ?] | case_match ].
  - intros ex.
    repeat first
      [ apply quiet_ret | by apply quiet_emit | apply quiet_bind; [|intros ?] ].
Qed.

Lemma harmless_fetches evs : Forall harmless evs → fetches evs = [].
Proof.
  induction 1 as [|ev evs Hev _ IH]; [done|].
  unfold fetches in *. simpl. by destruct ev.
Qed.

Lemma harmless_deliveries evs : Forall harmless evs → deliveries evs = [].
Proof.
  induction 1 as [|ev evs Hev _ IH]; [done|].
  unfold deliveries in *. simpl. by destruct ev.
Qed.

End Quiet.

(** What [search_audio] returns. *)
Lemma search_audio_returns e query ud w :
  fst (search_audio e query ud w) =
  inr match search_info e (search_request query) with
      | SearchDict (Some entries) =>
          if decide (Forall (λ v, is_Some (v_title v)) (take MAX_SEARCH_RESULTS entries))
          then (SELECT_RESULT, UserData (Some entries))
          else (END, ud)
      | _ => (END, ud)
      end.
Proof.
  unfold search_audio, mbind, ST_bind, bind, try_except, emit; simpl.
  destruct (search_info e (search_request query)) as [msg| |[entries|]]; simpl;
    try reflexivity.
  case_decide as Hall.
  - destruct (result_buttons_ok (take MAX_SEARCH_RESULTS entries) 1
                (World (fs w) (db w)
                   (((out w ++ [Reply MsgSearching]) ++ [Search (search_request query)])
                      ++ [DeleteSearching])) Hall) as (keyboard & -> & _).
    reflexivity.
  - by rewrite result_buttons_missing.
Qed.

(** X7. A call of [search_audio] that returns, returns [SELECT_RESULT] or
    [END]. When it returns [SELECT_RESULT], the reply of yt-dlp was a
    dictionary with an ['entries'] list whose first five entries all have a
    title, and the stored candidates are the entries of that reply; so for
    every other reply (an exception, a falsy reply, no ['entries'] key, a
    title missing) what it returns is [END]. The candidates stored after the
    call are those stored before it or the entries of a reply of that kind.
    The call does not touch the disk or the database and neither downloads
    nor delivers. *)
Theorem search_audio_outcome e query ud w st ud' w' :
  search_audio e query ud w = (inr (st, ud'), w') →
  (st = SELECT_RESULT ∨ st = END) ∧
  (st = SELECT_RESULT →
   ∃ entries,
     search_info e (search_request query) = SearchDict (Some entries) ∧
     Forall (λ v, is_Some (v_title v)) (take MAX_SEARCH_RESULTS entries) ∧
     ud' = UserData (Some entries)) ∧
  (ud' = ud ∨
   ∃ entries,
     search_info e (search_request query) = SearchDict (Some entries) ∧
     Forall (λ v, is_Some (v_title v)) (take MAX_SEARCH_RESULTS entries) ∧
     ud' = UserData (Some entries)) ∧
  fs w' = fs w ∧ db w' = db w ∧
  fetches (out w') = fetches (out w) ∧
  deliveries (out w') = deliveries (out w).
Proof.
  intros Hrun.
  destruct (quiet_search_audio e query ud w) as (Hfs & Hdb & evs & Hout & Hevs).
  pose proof (search_audio_returns e query ud w) as Hret.
  rewrite Hrun in Hret, Hfs, Hdb, Hout. simpl in *.
  assert (st = END ∧ ud' = ud ∨
          st = SELECT_RESULT ∧
          ∃ entries,
            search_info e (search_request query) = SearchDict (Some entries) ∧
            Forall (λ v, is_Some (v_title v)) (take MAX_SEARCH_RESULTS entries) ∧
            ud' = UserData (Some entries)) as Hcases.
  { destruct (search_info e (search_request query)) as [msg| |[entries|]];
      try (injection Hret as -> ->; by left).
    case_decide as Hall; injection Hret as -> ->; [right | by left].
    split; [done|]. by exists entries. }
  split; [|split; [|split]].
  - destruct Hcases as [[-> _]|[-> _]]; auto.
  - intros ->. by destruct Hcases as [[? _]|[_ ?]].
  - destruct Hcases as [[_ ->]|[_ ?]]; auto.
  - repeat split; try done.
    + rewrite Hout, fetches_app, (harmless_fetches evs Hevs). apply app_nil_r.
    + rewrite Hout, deliveries_app, (harmless_deliveries evs Hevs). apply app_nil_r.
Qed.

(** X7 for a search that finds two videos. *)
Lemma search_audio_outcome_witness :
  (SELECT_RESULT = SELECT_RESULT ∨ SELECT_RESULT = END) ∧
  (SELECT_RESULT = SELECT_RESULT →
   ∃ entries,
     search_info (Scenario.calm 0) (search_request "lofi") = SearchDict (Some entries) ∧
     Forall (λ v, is_Some (v_title v)) (take MAX_SEARCH_RESULTS entries) ∧
     UserData (Some Scenario.candidates) = UserData (Some entries)) ∧
  (UserData (Some Scenario.candidates) = UserData None ∨
   ∃ entries,
     search_info (Scenario.calm 0) (search_request "lofi") = SearchDict (Some entries) ∧
     Forall (λ v, is_Some (v_title v)) (take MAX_SEARCH_RESULTS entries) ∧
     UserData (Some Scenario.candidates) = UserData (Some entries)) ∧
  fs (snd (search_audio (Scenario.calm 0) "lofi" (UserData None) Scenario.fresh)) =
    fs Scenario.fresh ∧
  db (snd (search_audio (Scenario.calm 0) "lofi" (UserData None) Scenario.fresh)) =
    db Scenario.fresh ∧
  fetches (out (snd (search_audio (Scenario.calm 0) "lofi" (UserData None) Scenario.fresh))) =
    fetches (out Scenario.fresh) ∧
  deliveries (out (snd (search_audio (Scenario.calm 0) "lofi" (UserData None) Scenario.fresh))) =
    deliveries (out Scenario.fresh).
Proof.
  apply (search_audio_outcome (Scenario.calm 0) "lofi" (UserData None) Scenario.fresh
           SELECT_RESULT (UserData (Some Scenario.candidates))
           (snd (search_audio (Scenario.calm 0) "lofi" (UserData None) Scenario.fresh))).
  reflexivity.
Defined.

(** X8. [search_audio] tells an empty answer from a failure. A falsy reply
    or a reply without ['entries'] is answered with the no-result text and
    nothing is logged. An exception of yt-dlp, or a title missing among the
    first five entries, is answered with the search-error text, and the text
    of the exception is logged. A reply that can be shown is answered with
    the result keyboard and nothing is logged. *)
Theorem search_failures_are_told_apart e query ud w :
  match search_info e (search_request query) with
  | SearchRaises msg =>
      last (out (snd (search_audio e query ud w))) = Some (Reply MsgSearchError) ∧
      logged (out (snd (search_audio e query ud w))) =
        (logged (out w) ++ [("Erreur de recherche : " ++ msg)%string])%list
  | SearchFalsy | SearchDict None =>
      last (out (snd (search_audio e query ud w))) = Some (Reply MsgNoResults) ∧
      logged (out (snd (search_audio e query ud w))) = logged (out w)
  | SearchDict (Some entries) =>
      if decide (Forall (λ v, is_Some (v_title v)) (take MAX_SEARCH_RESULTS entries))
      then
        (∃ keyboard,
           last (out (snd (search_audio e query ud w))) =
             Some (Reply (MsgResults (keyboard ++ [cancel_button])))) ∧
        logged (out (snd (search_audio e query ud w))) = logged (out w)
      else
        last (out (snd (search_audio e query ud w))) = Some (Reply MsgSearchError) ∧
        logged (out (snd (search_audio e query ud w))) =
          (logged (out w) ++ ["Erreur de recherche : 'title'"])%list
  end.
Proof.
  unfold search_audio, mbind, ST_bind, bind, try_except, emit; simpl.
  destruct (search_info e (search_request query)) as [msg| |[entries|]]; simpl.
  - rewrite last_snoc, !logged_app. simpl. by rewrite !app_nil_r.
  - rewrite last_snoc, !logged_app. simpl. by rewrite !app_nil_r.
  - case_decide as Hall.
    + destruct (result_buttons_ok (take MAX_SEARCH_RESULTS entries) 1
                  (World (fs w) (db w)
                     (((out w ++ [Reply MsgSearching]) ++ [Search (search_request query)])
                        ++ [DeleteSearching])) Hall) as (keyboard & -> & _).
      simpl. split; [exists keyboard; by rewrite last_snoc|].
      rewrite !logged_app. simpl. by rewrite !app_nil_r.
    + rewrite result_buttons_missing by done. simpl.
      rewrite last_snoc, !logged_app. simpl. by rewrite !app_nil_r.
  - rewrite last_snoc, !logged_app. simpl. by rewrite !app_nil_r.
Qed.

(** ** The conversation handler *)

(** X9. Only a button pressed in stage [SELECT_RESULT] can download, deliver,
    record or change the disk: every other update, in every stage, leaves
    the disk and the database as they were and neither downloads nor
    delivers anything. *)
Theorem only_a_selection_downloads e user s u w :
  (stage s = SELECT_RESULT → ∀ d, u ≠ CallbackQuery d) →
  fs (snd (handle e user s u w)) = fs w ∧
  db (snd (handle e user s u w)) = db w ∧
  fetches (out (snd (handle e user s u w))) = fetches (out w) ∧
  deliveries (out (snd (handle e user s u w))) = deliveries (out w).
Proof.
  intros Hu.
  assert (quiet (handle e user s u)) as Hq.
  { unfold handle. destruct (stage s) eqn:Hs, u as [name|d|text];
      try (by destruct (Hu eq_refl d));
      repeat first
        [ apply quiet_ret | apply quiet_start_command | apply quiet_callback_handler
        | apply quiet_search_audio | apply quiet_bind; [|intros ?]
        | case_decide | case_match ]. }
  destruct (Hq w) as (Hfs & Hdb & evs & Hout & Hevs).
  rewrite Hfs, Hdb, Hout, fetches_app, deliveries_app.
  rewrite (harmless_fetches evs Hevs), (harmless_deliveries evs Hevs).
  by rewrite !app_nil_r.
Qed.

(** X9 for a text message that arrives while a result keyboard is shown. *)
Lemma only_a_selection_downloads_witness :
  fs (snd (handle (Scenario.calm 0) Scenario.alice (Session SELECT_RESULT Scenario.choosing)
             (TextMessage "lofi") Scenario.returning)) = fs Scenario.returning ∧
  db (snd (handle (Scenario.calm 0) Scenario.alice (Session SELECT_RESULT Scenario.choosing)
             (TextMessage "lofi") Scenario.returning)) = db Scenario.returning ∧
  fetches (out (snd (handle (Scenario.calm 0) Scenario.alice
                       (Session SELECT_RESULT Scenario.choosing)
                       (TextMessage "lofi") Scenario.returning))) =
    fetches (out Scenario.returning) ∧
  deliveries (out (snd (handle (Scenario.calm 0) Scenario.alice
                          (Session SELECT_RESULT Scenario.choosing)
                          (TextMessage "lofi") Scenario.returning))) =
    deliveries (out Scenario.returning).
Proof.
  apply (only_a_selection_downloads (Scenario.calm 0) Scenario.alice
           (Session SELECT_RESULT Scenario.choosing) (TextMessage "lofi")
           Scenario.returning).
  intros _ d. discriminate.
Defined.

(** What [callback_handler] returns: it opens the search on ['search'], and
    otherwise it leaves the stage alone or raises. *)
Lemma callback_handler_returns e d uid w :
  match fst (callback_handler e d uid w) with
  | inr (Some st) => st = SEARCH_QUERY ∧ d = "search"
  | inr None => d ≠ "search"
  | inl _ => d = "stats"
  end.
Proof.
  unfold callback_handler, mbind, ST_bind, bind, emit; simpl.
  repeat case_decide; simpl; try done.
  unfold with_connection, query. repeat case_decide; simpl; try done.
  by destruct (Store.select_stats _ _) as [[[? ?] ?]|].
Qed.

(** X10. The stages of a conversation move in one circle only. From [END] a
    conversation can only go to [SEARCH_QUERY], and only by the button
    ['search']; from [SEARCH_QUERY] it leaves only on a text message, to
    [SELECT_RESULT] or back to [END]; from [SELECT_RESULT] it leaves only on
    a button, and then to [END]. The stored candidates are changed by no
    handler but [search_audio], on a text message in [SEARCH_QUERY], and then
    to the entries of the reply of yt-dlp; no step clears them. *)
Theorem conversation_moves_in_one_circle e user s u w s' w' :
  handle e user s u w = (inr s', w') →
  match stage s, stage s' with
  | END, SEARCH_QUERY => u = CallbackQuery "search"
  | SEARCH_QUERY, SELECT_RESULT | SEARCH_QUERY, END => ∃ query, u = TextMessage query
  | SELECT_RESULT, END => ∃ d, u = CallbackQuery d
  | END, SELECT_RESULT | SELECT_RESULT, SEARCH_QUERY => False
  | _, _ => True
  end ∧
  (data s' = data s ∨
   stage s = SEARCH_QUERY ∧
   ∃ query entries,
     u = TextMessage query ∧
     search_info e (search_request query) = SearchDict (Some entries) ∧
     data s' = UserData (Some entries)) ∧
  (search_results (data s') = None → search_results (data s) = None).
Proof.
  intros Hrun.
  assert (match stage s, stage s' with
          | END, SEARCH_QUERY => u = CallbackQuery "search"
          | SEARCH_QUERY, SELECT_RESULT | SEARCH_QUERY, END => ∃ query, u = TextMessage query
          | SELECT_RESULT, END => ∃ d, u = CallbackQuery d
          | END, SELECT_RESULT | SELECT_RESULT, SEARCH_QUERY => False
          | _, _ => True
          end ∧
          (data s' = data s ∨
           stage s = SEARCH_QUERY ∧
           ∃ query entries,
             u = TextMessage query ∧
             search_info e (search_request query) = SearchDict (Some entries) ∧
             data s' = UserData (Some entries))) as [Hstage Hdata].
  { revert Hrun. destruct s as [st ud]. unfold handle; simpl.
    destruct st, u as [name|d|query]; simpl;
      try (intros [= <- <-]; simpl; by auto);
      try (case_decide; unfold mbind, ST_bind, bind; simpl; intros [= <- <-]; simpl; by auto).
    - (* a text message in SEARCH_QUERY *)
      unfold mbind, ST_bind, bind. intros Hrun.
      pose proof (search_audio_returns e query ud w) as Hret.
      destruct (search_audio e query ud w) as [[ex|[st ud']] w1]; simpl in *; [done|].
      injection Hrun as <- <-. simpl.
      split; [destruct st; eauto|].
      destruct (search_info e (search_request query)) as [| |[entries|]] eqn:Hreply;
        try (injection Hret as -> ->; by left).
      case_decide; injection Hret as -> ->; [right | by left].
      split; [done|]. by exists query, entries.
    - (* a button in SELECT_RESULT *)
      unfold mbind, ST_bind, bind. intros Hrun.
      destruct (select_summary e d user ud w) as (w1 & evs & Hsel & _).
      rewrite Hsel in Hrun. injection Hrun as <- <-. simpl. eauto.
    - (* a button outside a conversation *)
      unfold mbind, ST_bind, bind. intros Hrun.
      pose proof (callback_handler_returns e d (id user) w) as Hret.
      destruct (callback_handler e d (id user) w) as [[ex|[st|]] w1]; simpl in *; [done| |].
      + destruct Hret as [-> ->]. injection Hrun as <- <-. simpl. auto.
      + injection Hrun as <- <-. simpl. auto. }
  split; [done|]. split; [done|].
  destruct Hdata as [->|(_ & query & entries & _ & _ & ->)]; [done | discriminate].
Qed.

(** X10 for the button that opens a search. *)
Lemma conversation_moves_in_one_circle_witness :
  match stage Scenario.idle, stage (Session SEARCH_QUERY (UserData None)) with
  | END, SEARCH_QUERY => CallbackQuery "search" = CallbackQuery "search"
  | SEARCH_QUERY, SELECT_RESULT | SEARCH_QUERY, END =>
      ∃ query, CallbackQuery "search" = TextMessage query
  | SELECT_RESULT, END => ∃ d, CallbackQuery "search" = CallbackQuery d
  | END, SELECT_RESULT | SELECT_RESULT, SEARCH_QUERY => False
  | _, _ => True
  end ∧
  (data (Session SEARCH_QUERY (UserData None)) = data Scenario.idle ∨
   stage Scenario.idle = SEARCH_QUERY ∧
   ∃ query entries,
     CallbackQuery "search" = TextMessage query ∧
     search_info (Scenario.calm 0) (search_request query) = SearchDict (Some entries) ∧
     data (Session SEARCH_QUERY (UserData None)) = UserData (Some entries)) ∧
  (search_results (data (Session SEARCH_QUERY (UserData None))) = None →
   search_results (data Scenario.idle) = None).
Proof.
  apply (conversation_moves_in_one_circle (Scenario.calm 0) Scenario.alice Scenario.idle
           (CallbackQuery "search") Scenario.fresh (Session SEARCH_QUERY (UserData None))
           (World ∅ Store.empty_db [Answer; Edit MsgAskQuery])).
  reflexivity.
Defined.

(** X11. The cancel button under a result keyboard ends the conversation
    without downloading. The command [/cancel] does not end it: the fallback
    runs [start_command], which shows the welcome menu and returns nothing,
    so that the stage and the stored candidates stay as they were, in
    [SEARCH_QUERY] as in [SELECT_RESULT]. *)
Theorem cancel_button_ends_but_cancel_command_does_not e user ud w :
  handle e user (Session SELECT_RESULT ud) (CallbackQuery "cancel") w =
    (inr (Session END ud), World (fs w) (db w) (out w ++ [Answer; Edit MsgCancelled])) ∧
  handle e user (Session SELECT_RESULT ud) (Command "cancel") w =
    (inr (Session SELECT_RESULT ud), World (fs w) (db w) (out w ++ [Reply MsgWelcome])) ∧
  handle e user (Session SEARCH_QUERY ud) (Command "cancel") w =
    (inr (Session SEARCH_QUERY ud), World (fs w) (db w) (out w ++ [Reply MsgWelcome])).
Proof.
  repeat split; unfold handle, mbind, ST_bind, bind; simpl; try reflexivity.
  by rewrite <- app_assoc.
Qed.

(** ** The stats panel after any history *)

Lemma stats_of_unknown_user e uid w :
  Store.users (db w) !! uid = None →
  read_fault e = false →
  callback_handler e "stats" uid w =
  (inr None, World (fs w) (db w) (out w ++ [Answer; Edit MsgNoStats])).
Proof.
  intros Hrow Hfault. destruct w as [f d o]; simpl in *.
  unfold callback_handler, mbind, ST_bind, bind, with_connection, query, emit,
    read_fault in *; simpl.
  destruct (db_fault e) as [[]|]; try discriminate; simpl;
    unfold Store.select_stats; rewrite Hrow; simpl; by rewrite <- app_assoc.
Qed.

(** X12. After any sequence of updates handled by the bot, starting from
    the empty database, the stats panel of a user shows the same number as
    total downloads and as unique files, namely the number of the user's
    download rows, when that number is positive; it shows the no-statistics
    text exactly when the user has no download row. *)
Theorem stats_panel_numbers_agree updates files e uid :
  read_fault e = false →
  ∃ m,
    callback_handler e "stats" uid (serve_all updates (World files Store.empty_db [])) =
      (inr None,
       World (fs (serve_all updates (World files Store.empty_db [])))
             (db (serve_all updates (World files Store.empty_db [])))
             (out (serve_all updates (World files Store.empty_db [])) ++ [Answer; Edit m])) ∧
    match m with
    | MsgNoStats =>
        Store.count_downloads (db (serve_all updates (World files Store.empty_db []))) uid = 0
    | MsgStats total unique _ =>
        total = unique ∧
        unique =
          Store.count_downloads (db (serve_all updates (World files Store.empty_db []))) uid ∧
        0 < unique
    | _ => False
    end.
Proof.
  intros Hfault. set (w := serve_all updates (World files Store.empty_db [])).
  assert (consistent (db w)) as Hc by apply serve_all_consistent, consistent_empty.
  specialize (Hc uid). unfold counter, counter_for in Hc.
  pose proof (count_downloads_nonneg (db w) uid) as Hge.
  destruct (Store.users (db w) !! uid) as [r|] eqn:Hrow; simpl in Hc.
  - case_decide as Hz; [done|]. injection Hc as Hc.
    eexists. split; [by apply stats_of_known_user|]. simpl.
    rewrite Hc. simpl. repeat split; lia.
  - case_decide as Hz; [|done].
    eexists. split; [by apply stats_of_unknown_user|]. done.
Qed.

(** X12 after one served download, asked by the user who was served. *)
Lemma stats_panel_numbers_agree_witness :
  ∃ m,
    callback_handler (Scenario.calm 50) "stats" 7
      (serve_all [Inbound (Scenario.calm 0) Scenario.alice
                    (Session SELECT_RESULT Scenario.choosing) (CallbackQuery "select_video_0")]
         (World ∅ Store.empty_db [])) =
      (inr None,
       World
         (fs (serve_all [Inbound (Scenario.calm 0) Scenario.alice
                           (Session SELECT_RESULT Scenario.choosing)
                           (CallbackQuery "select_video_0")]
                (World ∅ Store.empty_db [])))
         (db (serve_all [Inbound (Scenario.calm 0) Scenario.alice
                           (Session SELECT_RESULT Scenario.choosing)
                           (CallbackQuery "select_video_0")]
                (World ∅ Store.empty_db [])))
         (out (serve_all [Inbound (Scenario.calm 0) Scenario.alice
                            (Session SELECT_RESULT Scenario.choosing)
                            (CallbackQuery "select_video_0")]
                 (World ∅ Store.empty_db [])) ++ [Answer; Edit m])) ∧
    match m with
    | MsgNoStats =>
        Store.count_downloads
          (db (serve_all [Inbound (Scenario.calm 0) Scenario.alice
                            (Session SELECT_RESULT Scenario.choosing)
                            (CallbackQuery "select_video_0")]
                 (World ∅ Store.empty_db []))) 7 = 0
    | MsgStats total unique _ =>
        total = unique ∧
        unique =
          Store.count_downloads
            (db (serve_all [Inbound (Scenario.calm 0) Scenario.alice
                              (Session SELECT_RESULT Scenario.choosing)
                              (CallbackQuery "select_video_0")]
                   (World ∅ Store.empty_db []))) 7 ∧
        0 < unique
    | _ => False
    end.
Proof.
  apply (stats_panel_numbers_agree
           [Inbound (Scenario.calm 0) Scenario.alice
              (Session SELECT_RESULT Scenario.choosing) (CallbackQuery "select_video_0")]
           ∅ (Scenario.calm 50) 7).
  reflexivity.
Defined.

(** X13. [callback_handler] has no handler for exceptions: when the storage
    medium fails during the stats query, the exception leaves the handler
    and the conversation handler with it; the user's button press has been
    answered and nothing else is shown. *)
Theorem stats_failure_is_not_caught e user ud w :
  read_fault e = true →
  callback_handler e "stats" (id user) w =
    (inl (DatabaseError fault_msg), World (fs w) (db w) (out w ++ [Answer])) ∧
  handle e user (Session END ud) (CallbackQuery "stats") w =
    (inl (DatabaseError fault_msg), World (fs w) (db w) (out w ++ [Answer])).
Proof.
  intros Hfault. destruct w as [f d o]; simpl.
  unfold handle, callback_handler, mbind, ST_bind, bind, with_connection, query, emit,
    read_fault in *; simpl.
  destruct (db_fault e) as [[]|]; try discriminate; simpl; done.
Qed.

(** X13 for a database that cannot be opened. *)
Lemma stats_failure_is_not_caught_witness :
  callback_handler
    (Scenario.env_at 0 (SearchDict (Some Scenario.candidates)) None (Some Connect))
    "stats" (id Scenario.alice) Scenario.returning =
    (inl (DatabaseError fault_msg),
     World (fs Scenario.returning) (db Scenario.returning) (out Scenario.returning ++ [Answer])) ∧
  handle
    (Scenario.env_at 0 (SearchDict (Some Scenario.candidates)) None (Some Connect))
    Scenario.alice (Session END Scenario.choosing) (CallbackQuery "stats") Scenario.returning =
    (inl (DatabaseError fault_msg),
     World (fs Scenario.returning) (db Scenario.returning) (out Scenario.returning ++ [Answer])).
Proof.
  apply (stats_failure_is_not_caught
           (Scenario.env_at 0 (SearchDict (Some Scenario.candidates)) None (Some Connect))
           Scenario.alice Scenario.choosing Scenario.returning).
  reflexivity.
Defined.

(** ** What every history keeps *)

(** A property of the database that recording a download keeps is kept by
    every handler. *)
Section Histories.

Context (I : Store.database → Prop).
Hypothesis Hrecorded :
  ∀ e user v content d, I d → I (recorded e user v (file_digest content) d).

Lemma log_user_download_keeps e user v path : preserves I (_log_user_download e user v path).
Proof.
  intros w Hw. pose proof (log_user_download_atomic e user v path w) as Ha.
  destruct (_log_user_download _ _ _ _ _) as [[ex|[]] w']; simpl in *.
  - by rewrite Ha.
  - destruct Ha as (content & _ & ->). by apply Hrecorded.
Qed.

Lemma select_and_download_keeps e data user ud :
  preserves I (select_and_download e data user ud).
Proof.
  unfold select_and_download. apply preserves_bind; [apply preserves_emit|]. intros _.
  case_decide.
  - apply preserves_bind; [apply preserves_emit|]. intros _. apply preserves_ret.
  - apply preserves_try.
    + repeat first
        [ apply preserves_ret | apply preserves_emit | apply preserves_item
        | apply preserves_list_item | apply preserves_download | apply preserves_open_file
        | apply preserves_send_audio | apply preserves_os_remove
        | apply log_user_download_keeps
        | apply preserves_bind; [|intros ?] | case_match ].
    + intros ex.
      repeat first
        [ apply preserves_ret | apply preserves_emit | apply preserves_bind; [|intros ?] ].
Qed.

Lemma handle_keeps e user s u : preserves I (handle e user s u).
Proof.
  unfold handle.
  repeat first
    [ apply preserves_ret | apply preserves_start_command
    | apply preserves_callback_handler | apply preserves_search_audio
    | apply select_and_download_keeps
    | apply preserves_bind; [|intros ?] | case_match | case_decide ].
Qed.

Lemma serve_all_keeps xs w : I (db w) → I (db (serve_all xs w)).
Proof.
  revert w. induction xs as [|x xs IH]; intros w Hw; [done|].
  apply IH. by apply handle_keeps.
Qed.

End Histories.

(** X14. Whatever updates the bot handles, for whatever users and with
    whatever failures, the rows it has are only added to: the download rows
    present before are still there, unchanged and in the same order, followed
    by the new ones; every user row present before is still present, and a
    counter that was not NULL has not decreased. *)
Theorem rows_are_only_added updates w :
  (∃ added,
     Store.downloads (db (serve_all updates w)) = (Store.downloads (db w) ++ added)%list) ∧
  (∀ uid r,
     Store.users (db w) !! uid = Some r →
     ∃ r', Store.users (db (serve_all updates w)) !! uid = Some r' ∧
           ∀ n, Store.total_downloads r = Some n →
                ∃ n', Store.total_downloads r' = Some n' ∧ n ≤ n').
Proof.
  split.
  - apply (serve_all_keeps
             (λ d, ∃ added, Store.downloads d = (Store.downloads (db w) ++ added)%list)).
    + intros e user v content d [added Hd]. simpl. rewrite Hd.
      eexists. by rewrite <- app_assoc.
    + exists []. by rewrite app_nil_r.
  - intros uid r Hrow.
    apply (serve_all_keeps
             (λ d, ∃ r', Store.users d !! uid = Some r' ∧
                         ∀ n, Store.total_downloads r = Some n →
                              ∃ n', Store.total_downloads r' = Some n' ∧ n ≤ n')).
    + intros e user v content d (r' & Hr' & Hmono). simpl.
      destruct (decide (id user = uid)) as [<-|Hne].
      * rewrite lookup_insert_eq. eexists. split; [done|]. simpl.
        intros n Hn. destruct (Hmono n Hn) as (n' & Hn' & Hle).
        unfold Store.select_total_plus_1. rewrite Hr', Hn'. simpl.
        eexists. split; [done | lia].
      * rewrite lookup_insert_ne by done. eauto.
    + exists r. split; [done|]. intros n Hn. exists n. split; [done | lia].
Qed.

(** X15. After any sequence of updates handled from the empty database,
    every download row is complete and refers to a user the bot knows: its
    user id is not NULL and has a row in [users] (the schema's foreign key,
    which SQLite does not enforce by itself), its video id, title and date
    are not NULL, and its fingerprint is a string of 32 characters. *)
Theorem download_rows_are_complete updates files :
  Forall
    (λ row,
       (∃ uid, Store.d_user_id row = Some uid ∧
               is_Some (Store.users
                          (db (serve_all updates (World files Store.empty_db []))) !! uid)) ∧
       is_Some (Store.d_video_id row) ∧
       is_Some (Store.d_title row) ∧
       is_Some (Store.d_download_date row) ∧
       (∃ h, Store.d_file_hash row = Some h ∧ String.length h = 32%nat))
    (Store.downloads (db (serve_all updates (World files Store.empty_db [])))).
Proof.
  apply (serve_all_keeps
           (λ d, Forall
                   (λ row,
                      (∃ uid, Store.d_user_id row = Some uid ∧
                              is_Some (Store.users d !! uid)) ∧
                      is_Some (Store.d_video_id row) ∧
                      is_Some (Store.d_title row) ∧
                      is_Some (Store.d_download_date row) ∧
                      (∃ h, Store.d_file_hash row = Some h ∧ String.length h = 32%nat))
                   (Store.downloads d))).
  - intros e user v content d Hd. simpl. apply Forall_app. split.
    + eapply Forall_impl; [exact Hd|]. simpl.
      intros row ((uid & Huid & Hrow) & Hrest). split; [|done].
      exists uid. split; [done|]. by apply lookup_insert_is_Some'; right.
    + constructor; [|constructor]. simpl. repeat split; try by eexists.
      * eexists. split; [done|]. rewrite lookup_insert_eq. by eexists.
      * eexists. split; [done|]. rewrite file_digest_md5. apply hex_words_length.
  - constructor.
Qed.

(** X16. After any sequence of updates handled from the empty database, the
    ids of the download rows are 1, 2, ..., n in the order in which the rows
    were written, and the autoincrement counter is n: no id is reused and
    none is skipped, also when a recording failed and was rolled back in
    between. *)
Theorem download_ids_count_up updates files :
  map Store.d_id (Store.downloads (db (serve_all updates (World files Store.empty_db [])))) =
    map Z.of_nat
      (seq 1 (length (Store.downloads
                        (db (serve_all updates (World files Store.empty_db [])))))) ∧
  Store.autoinc (db (serve_all updates (World files Store.empty_db []))) =
    Z.of_nat (length (Store.downloads
                        (db (serve_all updates (World files Store.empty_db []))))).
Proof.
  apply (serve_all_keeps
           (λ d, map Store.d_id (Store.downloads d) =
                   map Z.of_nat (seq 1 (length (Store.downloads d))) ∧
                 Store.autoinc d = Z.of_nat (length (Store.downloads d)))).
  - intros e user v content d [Hids Hauto]. simpl.
    rewrite length_app, map_app, Hids. simpl.
    rewrite Nat.add_1_r, seq_S, map_app. simpl. split.
    + do 2 f_equal. lia.
    + lia.
  - done.
Qed.

(** ** The first download of a user *)

(** X17. The first time a download of a user is recorded, the upsert creates
    the user's row with counter 1, the names of the user dictionary (the
    empty string for a missing one) and the current time as join date and as
    last-download date; the download row takes the texts "unknown" and
    "Unknown Title" for a video id or title that is missing; no other user's
    row changes. *)
Theorem first_download_creates_the_user_row e user v path w content :
  fs w !! path = Some content →
  write_fault e = false →
  Store.users (db w) !! id user = None →
  ∃ w',
    _log_user_download e user v path w = (inr tt, w') ∧
    Store.users (db w') !! id user =
      Some (Store.UserRow (Some (get (u_username user) "")) (Some (get (u_first_name user) ""))
              (Some (get (u_last_name user) "")) (Some (now e 0)) (Some 1) (Some (now e 1))) ∧
    (∀ uid, uid ≠ id user → Store.users (db w') !! uid = Store.users (db w) !! uid) ∧
    Store.downloads (db w') =
      (Store.downloads (db w) ++
       [Store.DownloadRow (Store.autoinc (db w) + 1) (Some (id user))
          (Some (get (v_id v) "unknown")) (Some (get (v_title v) "Unknown Title"))
          (Some (now e 2)) (Some (MD5.md5_hex content))])%list.
Proof.
  intros Hfile Hfault Hrow. eexists. split; [by apply log_user_download_ok|].
  simpl. unfold Store.select_total_plus_1. rewrite Hrow. simpl.
  split; [apply lookup_insert_eq|]. split.
  - intros uid Hne. by apply lookup_insert_ne.
  - by rewrite file_digest_md5.
Qed.

(** X17 for a user nobody has seen, and a video without id and title. *)
Lemma first_download_creates_the_user_row_witness :
  ∃ w',
    _log_user_download (Scenario.calm 100) Scenario.bob Scenario.nameless
      "downloads/def.mp3" Scenario.returning = (inr tt, w') ∧
    Store.users (db w') !! id Scenario.bob =
      Some (Store.UserRow (Some (get (u_username Scenario.bob) ""))
              (Some (get (u_first_name Scenario.bob) ""))
              (Some (get (u_last_name Scenario.bob) ""))
              (Some (now (Scenario.calm 100) 0)) (Some 1) (Some (now (Scenario.calm 100) 1))) ∧
    (∀ uid, uid ≠ id Scenario.bob →
       Store.users (db w') !! uid = Store.users (db Scenario.returning) !! uid) ∧
    Store.downloads (db w') =
      (Store.downloads (db Scenario.returning) ++
       [Store.DownloadRow (Store.autoinc (db Scenario.returning) + 1)
          (Some (id Scenario.bob))
          (Some (get (v_id Scenario.nameless) "unknown"))
          (Some (get (v_title Scenario.nameless) "Unknown Title"))
          (Some (now (Scenario.calm 100) 2)) (Some (MD5.md5_hex Scenario.song))])%list.
Proof.
  apply (first_download_creates_the_user_row (Scenario.calm 100) Scenario.bob
           Scenario.nameless "downloads/def.mp3" Scenario.returning Scenario.song);
    reflexivity.
Defined.

(** ** The reads of the fingerprint loop *)

Lemma read_sizes_empty : read_sizes CHUNK 0 = [0%nat].
Proof.
  unfold read_sizes. pose proof CHUNK_pos.
  rewrite Nat.div_small, Nat.mod_small by lia. by rewrite decide_True.
Qed.

Lemma read_sizes_short n : (0 < n < CHUNK)%nat → read_sizes CHUNK n = [n; 0%nat].
Proof.
  intros Hn. unfold read_sizes.
  rewrite Nat.div_small, Nat.mod_small by lia. by rewrite decide_False by lia.
Qed.

Lemma read_sizes_full n :
  (CHUNK ≤ n)%nat → read_sizes CHUNK n = CHUNK :: read_sizes CHUNK (n - CHUNK).
Proof.
  intros Hn. unfold read_sizes. pose proof CHUNK_pos.
  assert (n / CHUNK = S ((n - CHUNK) / CHUNK))%nat as ->.
  { rewrite <- Nat.add_1_r, <- Nat.div_add by lia. f_equal. lia. }
  assert (n mod CHUNK = (n - CHUNK) mod CHUNK)%nat as ->.
  { rewrite <- (Nat.Div0.mod_add (n - CHUNK) 1 CHUNK). f_equal. lia. }
  reflexivity.
Qed.

Lemma hash_loop_reads f h :
  f_reads (snd (hash_loop f h)) = (f_reads f ++ read_sizes CHUNK (remaining f))%list.
Proof.
  remember (remaining f) as n eqn:Hn. revert f h Hn.
  induction n as [n IH] using lt_wf_ind. intros [bytes pos reads] h Hn.
  unfold remaining in Hn; simpl in *.
  rewrite hash_loop_unfold. unfold read; simpl.
  pose proof (length_take (drop pos bytes) CHUNK) as Hlen.
  rewrite length_drop, <- Hn in Hlen.
  destruct (take CHUNK (drop pos bytes)) as [|b chunk] eqn:Et.
  - apply take_nil_inv in Et; [|apply CHUNK_pos].
    apply (f_equal length) in Et. rewrite length_drop in Et. simpl in *.
    assert (n = 0%nat) as -> by lia. by rewrite read_sizes_empty.
  - set (len := length (b :: chunk)) in *.
    assert (0 < len)%nat as Hpos by (subst len; cbn [length]; lia).
    clearbody len.
    rewrite (IH (n - len)%nat) by (unfold remaining; simpl; lia). simpl.
    rewrite <- app_assoc. f_equal. simpl.
    destruct (decide (CHUNK ≤ n)%nat).
    + assert (len = CHUNK) as -> by (rewrite Hlen; by apply Nat.min_l).
      by rewrite (read_sizes_full n).
    + assert (len = n) as -> by (rewrite Hlen; apply Nat.min_r; lia).
      rewrite Nat.sub_diag, read_sizes_empty.
      by rewrite read_sizes_short by lia.
Qed.

(** X18. On a file of [n] bytes the loop of [_calculate_file_hash] issues
    [n / 4096] reads of exactly 4096 bytes, then one read of the remaining [n
    mod 4096] bytes if there are any, then one read that returns nothing and
    ends the loop. An empty file takes the single empty read, and its
    fingerprint is the MD5 digest of the empty message. *)
Theorem fingerprint_reads_are_full_chunks_then_the_rest content :
  f_reads (snd (hash_file content)) =
    (replicate (length content / CHUNK) CHUNK
     ++ (if decide (length content mod CHUNK = 0)%nat then []
         else [(length content mod CHUNK)%nat])
     ++ [0%nat])%list ∧
  f_reads (snd (hash_file [])) = [0%nat] ∧
  file_digest [] = "d41d8cd98f00b204e9800998ecf8427e".
Proof.
  split; [|split].
  - unfold hash_file. rewrite hash_loop_reads. unfold remaining; simpl.
    by rewrite Nat.sub_0_r.
  - unfold hash_file. rewrite hash_loop_reads. unfold remaining; simpl.
    apply read_sizes_empty.
  - by vm_compute.
Qed.

(** ** How callback data and file names are read *)

(** Text that does not go on with a digit stops the run of digits. *)
Lemma ends_the_digits_scan rest :
  Text.ends_the_digits rest = true → Text.scan_digits rest = Decimal.Nil.
Proof.
  destruct rest as [|c rest]; [done|]. simpl. intros Hc.
  apply andb_true_iff in Hc as [_ Hc]. apply negb_true_iff in Hc.
  repeat match goal with
         | |- context [Ascii.eqb c ?x] =>
             destruct (Ascii.eqb_spec c x) as [->|_]; [by vm_compute in Hc|]
         end.
  reflexivity.
Qed.

(** X19. The pattern of [select_and_download] is matched at the start of the
    callback data and is not anchored at its end. For callback data of at
    most 64 bytes (the most Telegram accepts) in which the run of ASCII
    digits after [select_video_] is followed by nothing or by an ASCII
    character that is not a digit, whatever follows the digits is ignored,
    and the digits are read as a decimal number, leading zeros included:
    the data is handled exactly like the data of the button for that
    number. *)
Theorem selection_data_is_read_up_to_the_last_digit e user ud w d rest :
  d ≠ Decimal.Nil →
  Text.ends_the_digits rest = true →
  (String.length ("select_video_" ++ Text.print_digits d ++ rest) ≤ 64)%nat →
  match_select_video ("select_video_" ++ Text.print_digits d ++ rest) = Some (N.of_uint d) ∧
  select_and_download e ("select_video_" ++ Text.print_digits d ++ rest) user ud w =
    select_and_download e ("select_video_" ++ Text.str_of_N (N.of_uint d)) user ud w.
Proof.
  intros Hd Hrest _.
  assert (match_select_video ("select_video_" ++ Text.print_digits d ++ rest) =
          Some (N.of_uint d)) as Hmatch.
  { unfold match_select_video.
    rewrite strip_prefix_app, scan_digits_app by by apply ends_the_digits_scan.
    by destruct d. }
  split; [done|].
  unfold select_and_download. rewrite !decide_False by discriminate.
  by rewrite Hmatch, match_select_video_N.
Qed.

(** X19 for the data [select_video_001x], read as index 1. *)
Lemma selection_data_is_read_up_to_the_last_digit_witness :
  match_select_video
    ("select_video_" ++ Text.print_digits (Decimal.D0 (Decimal.D0 (Decimal.D1 Decimal.Nil)))
       ++ "x") =
    Some (N.of_uint (Decimal.D0 (Decimal.D0 (Decimal.D1 Decimal.Nil)))) ∧
  select_and_download (Scenario.calm 0)
    ("select_video_" ++ Text.print_digits (Decimal.D0 (Decimal.D0 (Decimal.D1 Decimal.Nil)))
       ++ "x") Scenario.alice Scenario.choosing Scenario.fresh =
    select_and_download (Scenario.calm 0)
      ("select_video_" ++
         Text.str_of_N (N.of_uint (Decimal.D0 (Decimal.D0 (Decimal.D1 Decimal.Nil)))))
      Scenario.alice Scenario.choosing Scenario.fresh.
Proof.
  apply (selection_data_is_read_up_to_the_last_digit (Scenario.calm 0) Scenario.alice
           Scenario.choosing Scenario.fresh
           (Decimal.D0 (Decimal.D0 (Decimal.D1 Decimal.Nil))) "x").
  - discriminate.
  - reflexivity.
  - simpl. lia.
Defined.

Lemma replace_absent old new s :
  Text.occurs old s = false → Text.replace_from old new 0 s = s.
Proof.
  induction s as [|c s IH]; [done|]. cbn [Text.occurs Text.replace_from].
  destruct (Text.strip_prefix old (String c s)); [done|].
  intros Hs. by rewrite IH.
Qed.

(** An occurrence of [.webm] cannot begin in [s] and end in a [.webm] put
    behind it. *)
Lemma no_straddle c s :
  Text.strip_prefix ".webm" (String c s) = None →
  Text.strip_prefix ".webm" (String c s ++ ".webm") = None.
Proof.
  destruct s as [|c2 [|c3 [|c4 [|c5 s]]]]; simpl;
    repeat (case_match; try done);
    repeat match goal with
           | H : Ascii.eqb _ _ = true |- _ => apply Ascii.eqb_eq in H; subst
           end; done.
Qed.

Lemma replace_webm_suffix stem :
  Text.occurs ".webm" stem = false →
  Text.replace ".webm" ".mp3" (stem ++ ".webm") = stem ++ ".mp3".
Proof.
  unfold Text.replace. induction stem as [|c stem IH]; [done|].
  cbn [Text.occurs]. destruct (Text.strip_prefix ".webm" (String c stem)) eqn:Hc; [done|].
  intros Hstem. change (String c stem ++ ".webm") with (String c (stem ++ ".webm")).
  cbn [Text.replace_from].
  change (String c (stem ++ ".webm")) with (String c stem ++ ".webm").
  rewrite (no_straddle c stem Hc). simpl. by rewrite IH.
Qed.

(** X20. The name under which the bot looks for the downloaded file: when
    yt-dlp prepared a name that ends in [.webm] (and has no other [.webm] in
    it), the bot looks for the same name ending in [.mp3]; when the prepared
    name has no [.webm] in it at all, as for an [.m4a] download, the bot
    looks for the prepared name itself. *)
Theorem the_file_the_bot_looks_for e url w stem ext written :
  Text.occurs ".webm" stem = false →
  fetch_info e url = FetchOk (stem ++ ext) written →
  (ext = ".webm" → fst (download e url w) = inr (stem ++ ".mp3")) ∧
  (Text.occurs ".webm" (stem ++ ext) = false → fst (download e url w) = inr (stem ++ ext)).
Proof.
  intros Hstem Hfetch. unfold download, mbind, ST_bind, bind, emit. simpl.
  rewrite Hfetch. simpl. split.
  - intros ->. by rewrite replace_webm_suffix.
  - intros Hext. unfold Text.replace. by rewrite replace_absent.
Qed.

(** X20 for a [.webm] download. *)
Lemma the_file_the_bot_looks_for_witness :
  (".webm" = ".webm" →
   fst (download (Scenario.calm 0) "https://youtu.be/abc" Scenario.fresh) =
     inr ("downloads/abc" ++ ".mp3")) ∧
  (Text.occurs ".webm" ("downloads/abc" ++ ".webm") = false →
   fst (download (Scenario.calm 0) "https://youtu.be/abc" Scenario.fresh) =
     inr ("downloads/abc" ++ ".webm")).
Proof.
  apply (the_file_the_bot_looks_for (Scenario.calm 0) "https://youtu.be/abc" Scenario.fresh
           "downloads/abc" ".webm" {["downloads/abc.mp3" := Scenario.song]});
    reflexivity.
Defined.

(** ** The clock *)

(** X21. [select_and_download] never looks at the time to decide anything:
    with another clock and the same collaborators it returns the same, shows,
    logs, downloads and delivers the same, leaves the same files on disk, and
    leaves every user with the same counter and the same number of download
    rows. The clock only supplies the dates that are written. *)
Theorem selection_does_not_look_at_the_clock e later data user ud w :
  fst (select_and_download
         (Env (search_info e) (fetch_info e) (send_audio_error e) (db_fault e) later)
         data user ud w) =
    fst (select_and_download e data user ud w) ∧
  out (snd (select_and_download
              (Env (search_info e) (fetch_info e) (send_audio_error e) (db_fault e) later)
              data user ud w)) =
    out (snd (select_and_download e data user ud w)) ∧
  fs (snd (select_and_download
             (Env (search_info e) (fetch_info e) (send_audio_error e) (db_fault e) later)
             data user ud w)) =
    fs (snd (select_and_download e data user ud w)) ∧
  ∀ uid,
    counter
      (db (snd (select_and_download
                  (Env (search_info e) (fetch_info e) (send_audio_error e) (db_fault e) later)
                  data user ud w))) uid =
      counter (db (snd (select_and_download e data user ud w))) uid ∧
    Store.count_downloads
      (db (snd (select_and_download
                  (Env (search_info e) (fetch_info e) (send_audio_error e) (db_fault e) later)
                  data user ud w))) uid =
      Store.count_downloads (db (snd (select_and_download e data user ud w))) uid.
Proof.
  set (e' := Env (search_info e) (fetch_info e) (send_audio_error e) (db_fault e) later).
  destruct (decide (data = "cancel")) as [->|Hdata]; [done|].
  destruct (match_select_video data) as [index|] eqn:Hindex.
  2: { unfold select_and_download. rewrite !decide_False by done.
       unfold mbind, ST_bind, bind, try_except, emit; simpl. by rewrite Hindex. }
  destruct (decide (N.of_nat (length (get (search_results ud) [])) ≤ index)%N) as [Hge|Hlt].
  { unfold select_and_download. rewrite !decide_False by done.
    unfold mbind, ST_bind, bind, try_except, emit; simpl. rewrite Hindex.
    apply N.leb_le in Hge. by rewrite Hge. }
  destruct (lookup_lt_is_Some_2 (get (search_results ud) []) (N.to_nat index))
    as [video Hvideo]; [lia|].
  destruct (v_title video) as [title|] eqn:Htitle.
  2: { by rewrite (select_without_title e user ud w data index video),
                  (select_without_title e' user ud w data index video). }
  destruct (v_webpage_url video) as [url|] eqn:Hurl.
  2: { by rewrite (select_without_url e user ud w data index video Hdata Hindex Hvideo title),
                  (select_without_url e' user ud w data index video Hdata Hindex Hvideo title). }
  destruct (fetch_info e url) as [msg|prepared written] eqn:Hfetch.
  { by rewrite (select_fetch_fails e user ud w data index video Hdata Hindex Hvideo
                  title url msg),
               (select_fetch_fails e' user ud w data index video Hdata Hindex Hvideo
                  title url msg). }
  destruct ((written ∪ fs w) !! Text.replace ".webm" ".mp3" prepared) as [content|] eqn:Hfile.
  2: { by rewrite (select_file_missing e user ud w data index video Hdata Hindex Hvideo
                     title url prepared written),
                  (select_file_missing e' user ud w data index video Hdata Hindex Hvideo
                     title url prepared written). }
  destruct (send_audio_error e) as [msg|] eqn:Hsend.
  { by rewrite (select_delivery_fails e user ud w data index video title url prepared
                  written content Hdata Hindex Hvideo Htitle Hurl Hfetch Hfile msg Hsend),
               (select_delivery_fails e' user ud w data index video title url prepared
                  written content Hdata Hindex Hvideo Htitle Hurl Hfetch Hfile msg eq_refl). }
  destruct (write_fault e) eqn:Hfault.
  { by rewrite (select_persistence_fails e user ud w data index video title url prepared
                  written content Hdata Hindex Hvideo Htitle Hurl Hfetch Hfile Hsend Hfault),
               (select_persistence_fails e' user ud w data index video title url prepared
                  written content Hdata Hindex Hvideo Htitle Hurl Hfetch Hfile eq_refl Hfault). }
  rewrite (select_succeeds e user ud w data index video title url prepared
             written content Hdata Hindex Hvideo Htitle Hurl Hfetch Hfile Hsend Hfault),
          (select_succeeds e' user ud w data index video title url prepared
             written content Hdata Hindex Hvideo Htitle Hurl Hfetch Hfile eq_refl Hfault).
  simpl. split; [done|]. split; [done|]. split; [done|]. intros uid. split.
  - unfold counter. simpl.
    destruct (decide (id user = uid)) as [<-|Hne].
    + by rewrite !lookup_insert_eq.
    + by rewrite !lookup_insert_ne.
  - unfold recorded. by rewrite !count_downloads_insert, !count_downloads_upsert.
Qed.
